(** * contentful.js: client construction, base URL and default headers

    A shallow embedding of [src/lib/contentful.js]: [createClient],
    [createNonAxiosHTTPClient] (with the [get] closure it returns),
    [createURL] and [createDefaultHeaders].

    The source is JavaScript (an ES module, hence strict mode).  Its
    objects are mutable and shared by reference, so the model has an
    explicit store: a heap of objects addressed by locations, the global
    binding [process], and the log of the requests built through the
    HTTP agent.  Every function of the source is a computation in a state
    and exception monad over that store.

    Scope of the model:
    - objects are plain objects: string-keyed data properties, no
      accessors, no own [toString]/[valueOf], not frozen; none of the keys
      the source reads is inherited from a prototype;
    - numbers are integers ([Z]), printed in decimal;
    - function values are not modelled, so calling a property of a
      modelled value that is not a string method is a [TypeError]. *)

From stdpp Require Import base strings gmap list pretty.

Local Open Scope string_scope.
Local Open Scope Z_scope.

(** ** Values, objects, store *)

Definition loc := positive.
Bind Scope positive_scope with loc.

Inductive value : Type :=
| VUndef
| VNull
| VBool (b : bool)
| VNum (n : Z)
| VStr (s : string)
| VObj (l : loc).

#[global] Instance value_eq_dec : EqDecision value.
Proof. solve_decision. Defined.

#[global] Instance value_inhabited : Inhabited value := populate VUndef.

(** A request as handed to the agent: [agent.get(url).query(q).set(headers)].
    [set] copies the entries of the object it receives, so the request
    carries the contents, not the reference. *)
Record request : Type := Request {
  req_url : string;
  req_query : value;
  req_headers : gmap string value
}.

Record state : Type := State {
  heap : gmap loc (gmap string value);
  process : option value;   (* [None]: the identifier is not declared *)
  requests : list request
}.

Definition set_heap (h : gmap loc (gmap string value)) (s : state) : state :=
  {| heap := h; process := process s; requests := requests s |}.

Definition add_request (r : request) (s : state) : state :=
  {| heap := heap s; process := process s; requests := (requests s ++ [r])%list |}.

(** The object stored at a location (a location outside the heap holds
    nothing). *)
Definition obj_at (s : state) (l : loc) : gmap string value :=
  default ∅ (heap s !! l).

(** ** Errors and the monad *)

Inductive error : Type :=
| TypeError (message : string)            (* [throw new TypeError(message)] *)
| NullishAccess (v : value) (key : string) (* property of undefined/null *)
| CannotCreateProperty (v : value) (key : string) (* strict-mode write on a primitive *)
| NotAFunction (key : string)             (* [x.key(...)] where x.key is not callable *)
| ReferenceError (name : string).         (* undeclared identifier *)

Inductive outcome (A : Type) : Type :=
| Ret (a : A)
| Throw (e : error).
Arguments Ret {A} a.
Arguments Throw {A} e.

Definition M (A : Type) : Type := state → outcome A * state.

Definition ret {A} (a : A) : M A := λ s, (Ret a, s).
Definition throw {A} (e : error) : M A := λ s, (Throw e, s).
Definition bind {A B} (m : M A) (k : A → M B) : M B :=
  λ s, match m s with
       | (Ret a, s') => k a s'
       | (Throw e, s') => (Throw e, s')
       end.

Notation "'let!' x ':=' m 'in' k" := (bind m (λ x, k))
  (at level 10, x name, m at level 100, k at level 200,
   format "'[v' 'let!'  x  ':='  m  'in' '/' k ']'").
Notation "m ';;;' k" := (bind m (λ _, k))
  (at level 100, k at level 200, right associativity).

(** ** JavaScript primitives used by the source *)

(** ToBoolean. *)
Definition truthy (v : value) : bool :=
  match v with
  | VUndef | VNull => false
  | VBool b => b
  | VNum n => negb (n =? 0)
  | VStr s => negb (String.eqb s "")
  | VObj _ => true
  end.

(** ToString, as performed by template literals and by [+] with a string
    operand. *)
Definition to_str (v : value) : string :=
  match v with
  | VUndef => "undefined"
  | VNull => "null"
  | VBool true => "true"
  | VBool false => "false"
  | VNum n => pretty n
  | VStr s => s
  | VObj _ => "[object Object]"
  end.

(** The value under key [k] of the object at [l] ([undefined] when the
    key is missing). *)
Definition prop (s : state) (l : loc) (k : string) : value :=
  default VUndef (obj_at s l !! k).

(** The store with the object at [l] replaced by [o]. *)
Definition put (s : state) (l : loc) (o : gmap string value) : state :=
  set_heap (<[l := o]> (heap s)) s.

(** The store after [l[k] = x]. *)
Definition store (s : state) (l : loc) (k : string) (x : value) : state :=
  put s l (<[k := x]> (obj_at s l)).

(** [v[k]] read. *)
Definition get_prop (v : value) (k : string) : M value :=
  λ s, match v with
       | VUndef | VNull => (Throw (NullishAccess v k), s)
       | VObj l => (Ret (prop s l k), s)
       | _ => (Ret VUndef, s)
       end.

(** [v[k] = x] in strict mode. *)
Definition set_prop (v : value) (k : string) (x : value) : M unit :=
  λ s, match v with
       | VUndef | VNull => (Throw (NullishAccess v k), s)
       | VObj l => (Ret tt, store s l k x)
       | _ => (Throw (CannotCreateProperty v k), s)
       end.

(** [k in v]. *)
Definition has_prop (k : string) (v : value) : M bool :=
  λ s, match v with
       | VObj l => (Ret (bool_decide (is_Some (obj_at s l !! k))), s)
       | _ => (Throw (TypeError "Cannot use 'in' operator"), s)
       end.

(** An object literal: a new object at a fresh location. *)
Definition alloc (o : gmap string value) : M value :=
  λ s, let l := fresh (dom (heap s)) in (Ret (VObj l), put s l o).

(** Reading the global [process]. *)
Definition read_process : M value :=
  λ s, match process s with
       | Some p => (Ret p, s)
       | None => (Throw (ReferenceError "process"), s)
       end.

(** Characters of a string as an object keyed by index. *)
Fixpoint index_props (i : nat) (s : string) : gmap string value :=
  match s with
  | EmptyString => ∅
  | String c r => <[pretty i := VStr (String c EmptyString)]> (index_props (S i) r)
  end.

(** Own enumerable string-keyed properties of a value. *)
Definition own_props (v : value) : M (gmap string value) :=
  λ s, match v with
       | VObj l => (Ret (obj_at s l), s)
       | VStr x => (Ret (index_props 0 x), s)
       | _ => (Ret ∅, s)
       end.

(** [Object(v)]: an object is itself; a primitive is wrapped in a new
    object (which carries the primitive's own enumerable properties). *)
Definition to_object (v : value) : M value :=
  match v with
  | VObj l => ret v
  | _ => let! o := own_props v in alloc o
  end.

(** lodash [assign(target, source)]: [Object(target)], then every own
    enumerable property of a truthy [source] is written to it. *)
Definition assign (target source : value) : M value :=
  let! t := to_object target in
  let! src := (if truthy source then own_props source else ret ∅) in
  let! old := own_props t in
  match t with
  | VObj l => λ s, (Ret t, put s l (src ∪ old))
  | _ => ret t
  end.

(** lodash [clone(v)]: a shallow copy of an object, a primitive as it is. *)
Definition clone (v : value) : M value :=
  match v with
  | VObj l => let! o := own_props v in alloc o
  | _ => ret v
  end.

(** The character [':'] (code 58). *)
Definition colon : Ascii.ascii :=
  Ascii.Ascii false true false true true true false false.

(** [s.split(':')]. *)
Fixpoint split_colon (s : string) : list string :=
  match s with
  | EmptyString => [EmptyString]
  | String c r =>
      if Ascii.eqb c colon then EmptyString :: split_colon r
      else match split_colon r with
           | x :: xs => String c x :: xs
           | [] => [String c EmptyString]
           end
  end.

(** [x === 'node'] *)
Definition strict_eq_str (v : value) (s : string) : bool :=
  match v with
  | VStr x => String.eqb x s
  | _ => false
  end.

(** ** The source *)

Record HttpClient : Type := {
  baseURL : string;
  defaultHeaders : value
}.

(** [createURL(params)].  The destructuring also reads [accessToken],
    [retryOnError] and [defaultHeaders], which the function does not use. *)
Definition createURL (params : value) : M string :=
  let! space := get_prop params "space" in
  let! insecure := get_prop params "insecure" in
  let! host := get_prop params "host" in
  let! defaultHostname := get_prop params "defaultHostname" in
  let! parts :=
    (if truthy host then
       match host with
       | VStr h => ret (split_colon h)
       | _ => throw (NotAFunction "split")
       end
     else ret []) in
  let hostname := default VUndef (VStr <$> parts !! 0%nat) in
  let port := default VUndef (VStr <$> parts !! 1%nat) in
  let hostname := if truthy hostname then hostname else defaultHostname in
  let port := if truthy port then port
              else if truthy insecure then VNum 80 else VNum 443 in
  let baseURL :=
    (if truthy insecure then "http" else "https") +:+ "://" +:+
    to_str hostname +:+ ":" +:+ to_str port +:+ "/spaces/" in
  let baseURL :=
    if truthy space then baseURL +:+ (to_str space +:+ "/") else baseURL in
  ret baseURL.

(** [process && process.release && process.release.name === 'node'] *)
Definition node_probe : M bool :=
  let! p := read_process in
  if truthy p then
    let! r := get_prop p "release" in
    if truthy r then
      let! n := get_prop r "name" in
      ret (strict_eq_str n "node")
    else ret false
  else ret false.

(** [createDefaultHeaders(params)].  It starts from [params.defaultHeaders],
    not from [params.headers]; [retryOnError] is read and not used. *)
Definition createDefaultHeaders (params : value) : M value :=
  let! accessToken := get_prop params "accessToken" in
  let! dh := get_prop params "defaultHeaders" in
  let! dh := (if truthy dh then ret dh else alloc ∅) in
  set_prop dh "Authorization" (VStr ("Bearer " +:+ to_str accessToken)) ;;;
  let! node := node_probe in
  (if node then
     let! p := read_process in
     let! v := get_prop p "version" in
     set_prop dh "user-agent" (VStr ("node.js/" +:+ to_str v)) ;;;
     set_prop dh "Accept-Encoding" (VStr "gzip")
   else ret tt) ;;;
  ret dh.

(** [createNonAxiosHTTPClient(params)]: the returned object's only member
    is the closure [get], which captures [baseURL] and [defaultHeaders]. *)
Definition createNonAxiosHTTPClient (params : value) : M HttpClient :=
  let! url := createURL params in
  let! dh := createDefaultHeaders params in
  ret {| baseURL := url; defaultHeaders := dh |}.

(** The closure [get(path, options)]. *)
Definition get (c : HttpClient) (path options : value) : M request :=
  let! copy := clone (defaultHeaders c) in
  let! oh := get_prop options "headers" in
  let! src := (if truthy oh then ret oh else alloc ∅) in
  let! headers := assign copy src in
  let url := baseURL c +:+ to_str path in
  let! q := get_prop options "query" in
  let! hs := own_props headers in
  let r := {| req_url := url; req_query := q; req_headers := hs |} in
  (λ s, (Ret r, add_request r s)).

(** What [createClient] hands to [createContentfulApi]: the HTTP client
    and the link resolver, which [createLinkResolver] builds from the
    normalized [resolveLinks] flag.  Both functions live outside this
    file; the result of [createClient] is represented by this argument
    record, the resolver by its flag. *)
Record ClientAPI : Type := {
  http : HttpClient;
  shouldLinksResolve : bool
}.

Section Client.

(** [version] comes from [../version.js]; [getUserAgentHeader] from the
    package [contentful-sdk-core], which formats the SDK identifier,
    [params.application] and [params.integration] into a string. *)
Variable version : string.
Variable getUserAgentHeader : string → value → value → string.

(** [createClient(params)] *)
Definition createClient (params : value) : M ClientAPI :=
  let! accessToken := get_prop params "accessToken" in
  if negb (truthy accessToken)
  then throw (TypeError "Expected parameter accessToken") else
  let! space := get_prop params "space" in
  if negb (truthy space)
  then throw (TypeError "Expected parameter space") else
  let! present := has_prop "resolveLinks" params in
  let! rl := (if present then get_prop params "resolveLinks"
              else ret (VBool true)) in
  let resolveLinks := truthy rl in
  let! application := get_prop params "application" in
  let! integration := get_prop params "integration" in
  let userAgentHeader :=
    getUserAgentHeader ("contentful.js/" +:+ version) application integration in
  set_prop params "defaultHostname" (VStr "cdn.contentful.com") ;;;
  let! headers := get_prop params "headers" in
  let! literal :=
    alloc {[ "Content-Type" := VStr "application/vnd.contentful.delivery.v1+json";
             "X-Contentful-User-Agent" := VStr userAgentHeader ]} in
  let! merged := assign headers literal in
  set_prop params "headers" merged ;;;
  let! client := createNonAxiosHTTPClient params in
  ret {| http := client; shouldLinksResolve := resolveLinks |}.

End Client.

(** * Vocabulary of the statements *)

(** ** Pure readers *)

(** [v[k]] for a [v] that is neither [undefined] nor [null]. *)
Definition lookup_key (s : state) (v : value) (k : string) : value :=
  match v with
  | VObj l => prop s l k
  | _ => VUndef
  end.

(** The own enumerable properties of [v] in store [s]. *)
Definition props_of (s : state) (v : value) : gmap string value :=
  match v with
  | VObj l => obj_at s l
  | VStr x => index_props 0 x
  | _ => ∅
  end.

Definition nullish (v : value) : bool :=
  match v with
  | VUndef | VNull => true
  | _ => false
  end.

(** The value of the probe [process && process.release &&
    process.release.name === 'node'] in store [s]: the runtime is Node. *)
Definition is_node (s : state) : bool :=
  match process s with
  | Some p =>
      truthy p && truthy (lookup_key s p "release") &&
      strict_eq_str (lookup_key s (lookup_key s p "release") "name") "node"
  | None => false
  end.

(** [process.version] *)
Definition process_version (s : state) : value :=
  match process s with
  | Some p => lookup_key s p "version"
  | None => VUndef
  end.

(** ** Well-formed stores

    A reference held anywhere in the store points to an object of the
    heap.  Stores of a running program are of this kind; the functions of
    the source keep them so. *)

Definition allocated (s : state) (v : value) : Prop :=
  match v with
  | VObj l => l ∈ dom (heap s)
  | _ => True
  end.

#[global] Instance allocated_dec s v : Decision (allocated s v).
Proof. destruct v; simpl; apply _. Defined.

Definition wf (s : state) : Prop :=
  map_Forall (λ _ o, map_Forall (λ _ v, allocated s v) o) (heap s) ∧
  from_option (allocated s) True (process s).

#[global] Instance wf_dec s : Decision (wf s).
Proof. unfold wf. destruct (process s); simpl; apply _. Defined.

(** ** Frames

    [evolves L W s s']: from [s] to [s'] nothing is sent, [process] is
    kept, no object disappears, the objects of [s] outside [L] are unchanged,
    and in every object of [s] the entries under keys outside [W] are
    unchanged. *)
Record evolves (L : list loc) (W : list string) (s s' : state) : Prop := {
  ev_process : process s' = process s;
  ev_requests : requests s' = requests s;
  ev_dom : dom (heap s) ⊆ dom (heap s');
  ev_locs : ∀ l, l ∈ dom (heap s) → l ∉ L → heap s' !! l = heap s !! l;
  ev_keys : ∀ l k, l ∈ dom (heap s) → k ∉ W → obj_at s' l !! k = obj_at s l !! k
}.

(** ** Running computations

    [runs m s Q]: from [s] the computation [m] returns normally, with a
    result and a final store related by [Q]. *)
Definition runs {A} (m : M A) (s : state) (Q : A → state → Prop) : Prop :=
  ∃ a s', m s = (Ret a, s') ∧ Q a s'.

(** [sat m s Φ]: the outcome of [m] from [s], normal or not, and the
    final store satisfy [Φ]. *)
Definition sat {A} (m : M A) (s : state) (Φ : outcome A → state → Prop) : Prop :=
  Φ (m s).1 (m s).2.

(** The text of [s] before its first colon, and the text after it. *)
Fixpoint before_colon (s : string) : string :=
  match s with
  | EmptyString => EmptyString
  | String c r => if Ascii.eqb c colon then EmptyString else String c (before_colon r)
  end.

Fixpoint after_colon (s : string) : option string :=
  match s with
  | EmptyString => None
  | String c r => if Ascii.eqb c colon then Some r else after_colon r
  end.

(** ** The base URL, as the source derives it

    The scheme follows [insecure]; the host name is the text of [host]
    before its first colon when that text is not empty, else the default
    host name; the port is the text between the first and the second
    colon of [host] when there is such a text and it is not empty, else
    80 or 443 after [insecure]. *)
Definition scheme_of (insecure : value) : string :=
  if truthy insecure then "http" else "https".

Definition default_port (insecure : value) : string :=
  if truthy insecure then "80" else "443".

Definition hostname_of (dflt : string) (host : value) : string :=
  match host with
  | VStr h => if String.eqb (before_colon h) "" then dflt else before_colon h
  | _ => dflt
  end.

Definition port_of (insecure host : value) : string :=
  match host with
  | VStr h =>
      match after_colon h with
      | Some r =>
          if String.eqb (before_colon r) "" then default_port insecure
          else before_colon r
      | None => default_port insecure
      end
  | _ => default_port insecure
  end.

Definition derived_baseURL (dflt : string) (insecure host space : value) : string :=
  scheme_of insecure +:+ "://" +:+ hostname_of dflt host +:+ ":" +:+
  port_of insecure host +:+ "/spaces/" +:+
  (if truthy space then to_str space +:+ "/" else "").

(** [host.split] exists: [host] is a string, or falsy and never split. *)
Definition host_ok (host : value) : bool :=
  match host with
  | VStr _ => true
  | _ => negb (truthy host)
  end.

(** The keys [createDefaultHeaders] writes, and what it writes under
    those that depend on the runtime. *)
Definition written_headers (s : state) : list string :=
  "Authorization" ::
  (if is_node s then ["user-agent"; "Accept-Encoding"] else []).

Definition node_headers (s : state) (o : gmap string value) : gmap string value :=
  if is_node s
  then <["Accept-Encoding" := VStr "gzip"]>
         (<["user-agent" := VStr ("node.js/" +:+ to_str (process_version s))]> o)
  else o.

Definition dh_ok (v : value) : bool :=
  match v with
  | VObj _ => true
  | _ => negb (truthy v)
  end.

Ltac solve_keys :=
  repeat match goal with
  | |- context [is_node ?s] => destruct (is_node s)
  end;
  rewrite ?not_elem_of_cons, ?elem_of_cons, ?elem_of_nil; intuition congruence.

(** ** [createClient] on the parameters it accepts *)

(** The parameters pass validation, [host.split] exists when it is called,
    [defaultHeaders] can take properties, and [process] is declared: the
    condition under which [createClient] returns
    ([createClient_returns_iff]). *)
Definition accepted (s : state) (l : loc) : bool :=
  truthy (prop s l "accessToken") && truthy (prop s l "space") &&
  host_ok (prop s l "host") && dh_ok (prop s l "defaultHeaders") &&
  bool_decide (is_Some (process s)).

(** [!!('resolveLinks' in params ? params.resolveLinks : true)] read off the
    params object. *)
Definition resolve_flag (o : gmap string value) : bool :=
  match o !! "resolveLinks" with
  | Some v => truthy v
  | None => true
  end.

Definition content_type : string := "application/vnd.contentful.delivery.v1+json".

(** Every key [createClient] writes under, in whatever object. *)
Definition written_keys (s : state) : list string :=
  ["defaultHostname"; "headers"; "Content-Type"; "X-Contentful-User-Agent"] ++
  written_headers s.

(** Nothing in the store refers to [l]. *)
Definition unreferenced (s : state) (l : loc) : Prop :=
  (∀ l' k, obj_at s l' !! k ≠ Some (VObj l)) ∧ process s ≠ Some (VObj l).

(** The store [s4] in which [createClient] calls
    [createNonAxiosHTTPClient]: params has its [defaultHostname], and its
    [headers] is the object [lh] with the two protocol headers. *)
Record normalized (ua : string) (s : state) (l : loc) (s4 : state) (lh : loc)
    : Prop := {
  nz_wf : wf s4;
  nz_frame :
    evolves [l; lh]
      ["defaultHostname"; "headers"; "Content-Type"; "X-Contentful-User-Agent"]
      s s4;
  nz_lh : match prop s l "headers" with
          | VObj x => lh = x
          | _ => lh ∉ dom (heap s)
          end;
  nz_lh_dom : lh ∈ dom (heap s4);
  nz_hostname : prop s4 l "defaultHostname" = VStr "cdn.contentful.com";
  nz_headers : prop s4 l "headers" = VObj lh;
  nz_content_type : obj_at s4 lh !! "Content-Type" = Some (VStr content_type);
  nz_user_agent : obj_at s4 lh !! "X-Contentful-User-Agent" = Some (VStr ua)
}.

(** What a successful [createClient(params)] has done, [params] being the
    object at [l] of the store [s]: [lh] is the object left in
    [params.headers], [ld] the client's default headers, [ua] the composed
    user-agent signature. *)
Record client_created (ua : string) (s : state) (l : loc) (api : ClientAPI)
    (s' : state) (lh ld : loc) : Prop := {
  cc_wf : wf s';
  cc_frame : evolves [l; lh; ld] (written_keys s) s s';
  cc_flag : shouldLinksResolve api = resolve_flag (obj_at s l);
  cc_url :
    baseURL (http api) =
      derived_baseURL "cdn.contentful.com"
        (prop s l "insecure") (prop s l "host") (prop s l "space");
  cc_headers : defaultHeaders (http api) = VObj ld;
  cc_lh : match prop s l "headers" with
          | VObj x => lh = x
          | _ => lh ∉ dom (heap s)
          end;
  cc_ld : match prop s l "defaultHeaders" with
          | VObj x => ld = x
          | _ => ld ∉ dom (heap s)
          end;
  cc_lh_dom : lh ∈ dom (heap s');
  cc_ld_dom : ld ∈ dom (heap s');
  cc_hostname : prop s' l "defaultHostname" = VStr "cdn.contentful.com";
  cc_params_headers : prop s' l "headers" = VObj lh;
  cc_content_type : obj_at s' lh !! "Content-Type" = Some (VStr content_type);
  cc_user_agent : obj_at s' lh !! "X-Contentful-User-Agent" = Some (VStr ua);
  cc_contents :
    ∃ before,
      obj_at s' ld =
        node_headers s
          (<["Authorization" :=
               VStr ("Bearer " +:+ to_str (prop s l "accessToken"))]> before) ∧
      (truthy (prop s l "defaultHeaders") = false → before = ∅);
  cc_fresh : truthy (prop s l "defaultHeaders") = false → unreferenced s' ld
}.

(** Membership of a literal key in a literal list of keys, inclusion of
    literal lists, membership in the domain of an extended heap. *)
Ltac notin_keys :=
  clear;
  unfold written_keys, written_headers;
  repeat match goal with
  | |- context [is_node ?s] => destruct (is_node s)
  end;
  let H := fresh in
  intros H; cbn [app] in H;
  repeat (apply elem_of_cons in H as [H|H]; [discriminate H|]);
  by apply elem_of_nil in H.

Ltac incl_keys :=
  clear;
  unfold written_keys, written_headers;
  repeat match goal with
  | |- context [is_node ?s] => destruct (is_node s)
  end;
  set_solver.

(** ** The closure [get] *)

(** The per-call headers: the own properties of a truthy
    [options.headers], nothing otherwise. *)
Definition per_call (s : state) (options : value) : gmap string value :=
  let oh := lookup_key s options "headers" in
  if truthy oh then props_of s oh else ∅.

(** * Example stores *)

(** A Node.js runtime: [process] is the object at 2, [process.release] the
    object at 3; the caller's params object is at 1. *)
Definition node_runtime (params : gmap string value) : state :=
  {| heap := {[ 1%positive := params;
                2%positive := {[ "release" := VObj 3; "version" := VStr "v6.9.1" ]};
                3%positive := {[ "name" := VStr "node" ]} ]};
     process := Some (VObj 2);
     requests := [] |}.

(** A browser with a bundler's [process] shim, which has no [release]. *)
Definition browser_runtime (params : gmap string value) : state :=
  {| heap := {[ 1%positive := params;
                2%positive := {[ "browser" := VBool true ]} ]};
     process := Some (VObj 2);
     requests := [] |}.

Definition example_version : string := "4.1.2".

Definition example_user_agent (sdk : string) (application integration : value) : string :=
  "sdk " +:+ sdk +:+ ";".

Definition params_tok : gmap string value :=
  {[ "accessToken" := VStr "tok"; "space" := VStr "abc" ]}.

(** * The base URL as the specification words it

    Host name: the part of [host] before the colon when [host] is given,
    else the default; port: the part of [host] after the colon when
    present, else 80 or 443. *)
Definition spec_hostname (host : value) : string :=
  match host with
  | VStr h => if truthy host then before_colon h else "cdn.contentful.com"
  | _ => "cdn.contentful.com"
  end.

Definition spec_port (insecure host : value) : string :=
  match host with
  | VStr h =>
      match after_colon h with
      | Some r => if String.eqb r "" then default_port insecure else r
      | None => default_port insecure
      end
  | _ => default_port insecure
  end.

Definition spec_baseURL (insecure host space : value) : string :=
  scheme_of insecure +:+ "://" +:+ spec_hostname host +:+ ":" +:+
  spec_port insecure host +:+ "/spaces/" +:+ to_str space +:+ "/".

(** Two params objects carry the same parameters. *)
Definition same_params (s : state) (l l2 : loc) : bool :=
  forallb (λ k, bool_decide (prop s l k = prop s l2 k))
    ["accessToken"; "space"; "insecure"; "host"].

(** ** Concrete parameters *)

Definition params_no_token : gmap string value :=
  {[ "space" := VStr "abc" ]}.

Definition params_no_space : gmap string value :=
  {[ "accessToken" := VStr "tok" ]}.

Definition params_secure : gmap string value :=
  <["insecure" := VBool false]> params_tok.

Definition params_insecure_host : gmap string value :=
  <["insecure" := VBool true]> (<["host" := VStr "example.com:9000"]> params_tok).

Definition params_port_only : gmap string value :=
  <["host" := VStr ":9000"]> params_tok.

Definition params_no_links : gmap string value :=
  <["resolveLinks" := VBool false]> params_tok.

(** [{accessToken, space, headers: {'X-Foo': 'bar'}}], the headers object
    at 4. *)
Definition store_with_headers : state :=
  put (node_runtime (<["headers" := VObj 4]> params_tok)) 4
    {[ "X-Foo" := VStr "bar" ]}.

(** [{accessToken, space, defaultHeaders: {}}], the object at 4. *)
Definition store_with_defaults : state :=
  put (node_runtime (<["defaultHeaders" := VObj 4]> params_tok)) 4 ∅.

(** Two params literals with the same parameters, at 1 and at 4. *)
Definition store_two_literals : state :=
  put (node_runtime params_tok) 4 params_tok.

(** A client with default headers at 4, options [{headers: {'X-Foo':
    'bar'}}] at 5 (their headers at 6) and empty options [{}] at 7. *)
Definition example_client : HttpClient :=
  {| baseURL := "https://cdn.contentful.com:443/spaces/abc/";
     defaultHeaders := VObj 4 |}.

Definition store_for_get : state :=
  {| heap := {[ 4%positive := {[ "Authorization" := VStr "Bearer tok" ]};
                5%positive := {[ "headers" := VObj 6 ]};
                6%positive := {[ "X-Foo" := VStr "bar" ]};
                7%positive := ∅ ]};
     process := None;
     requests := [] |}.

(** The result of a run that returned ([d] otherwise). *)
Definition returned {A} (d : A) (r : outcome A * state) : A :=
  match r.1 with
  | Ret a => a
  | Throw _ => d
  end.

Definition no_client : ClientAPI :=
  {| http := {| baseURL := ""; defaultHeaders := VUndef |};
     shouldLinksResolve := false |}.

Definition no_request : request :=
  {| req_url := ""; req_query := VUndef; req_headers := ∅ |}.

Ltac by_computation := apply (bool_decide_unpack _); vm_compute; exact I.

(** Exhibit the outcome of a concrete run. *)
Ltac exhibit d :=
  lazymatch goal with
  | |- ex (λ a, ex (λ s', ?m = _ ∧ _)) => exists (returned d m), (m.2)
  end.

Ltac computed := vm_compute; reflexivity.

(** ** What a computation leaves alone *)

(** [preserves R m]: whatever the outcome of [m], the store it starts from
    and the store it ends in are related by [R]. *)
Definition preserves {A} (R : state → state → Prop) (m : M A) : Prop :=
  ∀ s, R s (m s).2.

(** No request is built and [process] is kept. *)
Definition quiet (s s' : state) : Prop :=
  requests s' = requests s ∧ process s' = process s.

(** No object and no property disappears. *)
Definition keeps (s s' : state) : Prop :=
  dom (heap s) ⊆ dom (heap s') ∧
  ∀ l k, is_Some (obj_at s l !! k) → is_Some (obj_at s' l !! k).

(** [s] has no colon. *)
Fixpoint no_colon (s : string) : bool :=
  match s with
  | EmptyString => true
  | String c r => negb (Ascii.eqb c colon) && no_colon r
  end.

(** ** More concrete parameters *)

Definition params_numeric_host : gmap string value :=
  <["host" := VNum 8080]> params_tok.

Definition params_string_defaults : gmap string value :=
  <["defaultHeaders" := VStr "X-Foo: bar"]> params_tok.

Definition params_three_segments : gmap string value :=
  <["host" := VStr "example.com:9000:ignored"]> params_tok.

(** [{accessToken, space, defaultHeaders}], the default headers at 4 with a
    header of the caller's and an [Authorization] of the caller's. *)
Definition store_custom_defaults : state :=
  put (node_runtime (<["defaultHeaders" := VObj 4]> params_tok)) 4
    {[ "X-Custom" := VStr "1"; "Authorization" := VStr "Basic abc" ]}.

(** Two params objects, at 1 and 5, with different tokens and the same
    [defaultHeaders] object, at 4. *)
Definition store_two_tokens : state :=
  put (put (node_runtime (<["defaultHeaders" := VObj 4]> params_tok)) 4 ∅) 5
    {[ "accessToken" := VStr "other"; "space" := VStr "abc";
       "defaultHeaders" := VObj 4 ]}.

(** [{accessToken, space}] at 1 and the options [{query: 'limit=1'}] at 4. *)
Definition store_with_options : state :=
  put (node_runtime params_tok) 4 {[ "query" := VStr "limit=1" ]}.

(** A store without [process]. *)
Definition no_process (params : gmap string value) : state :=
  {| heap := {[ 1%positive := params ]}; process := None; requests := [] |}.

(** * Properties of the store operations *)

(** ** Lookups after an update *)

Lemma obj_at_put_eq s l o : obj_at (put s l o) l = o.
Proof. unfold obj_at, put; simpl. by rewrite lookup_insert_eq. Qed.

Lemma obj_at_put_ne s l l' o : l ≠ l' → obj_at (put s l o) l' = obj_at s l'.
Proof. intros. unfold obj_at, put; simpl. by rewrite lookup_insert_ne. Qed.

Lemma dom_put s l o : dom (heap (put s l o)) = {[l]} ∪ dom (heap s).
Proof. unfold put; simpl. by rewrite dom_insert_L. Qed.

Lemma obj_at_fresh s l : l ∉ dom (heap s) → obj_at s l = ∅.
Proof. intros H. unfold obj_at. by rewrite (not_elem_of_dom_1 _ _ H). Qed.

Lemma obj_at_store_eq s l k x : obj_at (store s l k x) l !! k = Some x.
Proof. unfold store. by rewrite obj_at_put_eq, lookup_insert_eq. Qed.

Lemma obj_at_store_key_ne s l l' k k' x :
  k ≠ k' → obj_at (store s l k x) l' !! k' = obj_at s l' !! k'.
Proof.
  intros Hk. unfold store. destruct (decide (l = l')) as [->|Hl].
  - by rewrite obj_at_put_eq, lookup_insert_ne.
  - by rewrite obj_at_put_ne.
Qed.

Lemma prop_store_eq s l k x : prop (store s l k x) l k = x.
Proof. unfold prop. by rewrite obj_at_store_eq. Qed.

Lemma prop_store_key_ne s l l' k k' x :
  k ≠ k' → prop (store s l k x) l' k' = prop s l' k'.
Proof. intros. unfold prop. by rewrite obj_at_store_key_ne. Qed.

Lemma prop_allocated s l k : truthy (prop s l k) = true → l ∈ dom (heap s).
Proof.
  unfold prop, obj_at. intros H. apply elem_of_dom.
  destruct (heap s !! l); [done|]. simpl in H. by rewrite lookup_empty in H.
Qed.

Lemma allocated_mono s s' v :
  dom (heap s) ⊆ dom (heap s') → allocated s v → allocated s' v.
Proof. destruct v; simpl; auto. Qed.

Lemma wf_prop s l k : wf s → allocated s (prop s l k).
Proof.
  intros [Hh _]. unfold prop, obj_at.
  destruct (heap s !! l) as [o|] eqn:Ho; simpl; [|by rewrite lookup_empty].
  destruct (o !! k) as [v|] eqn:Hv; simpl; [|done].
  exact (Hh _ _ Ho _ _ Hv).
Qed.

Lemma wf_lookup_key s v k : wf s → allocated s (lookup_key s v k).
Proof. destruct v; simpl; auto using wf_prop. Qed.

Lemma wf_put s l o :
  wf s → (∀ k v, o !! k = Some v → allocated (put s l o) v) → wf (put s l o).
Proof.
  intros [Hh Hp] Ho. assert (Hsub : dom (heap s) ⊆ dom (heap (put s l o))).
  { rewrite dom_put. set_solver. }
  split.
  - intros l' o' Hl'. unfold put in Hl'; simpl in Hl'.
    apply lookup_insert_Some in Hl' as [[<- <-]|[_ Hl']].
    + intros k v Hv. eauto.
    + intros k v Hv. eapply allocated_mono; [exact Hsub|]. exact (Hh _ _ Hl' _ _ Hv).
  - change (process (put s l o)) with (process s).
    destruct (process s); simpl in *; [|done]. by eapply allocated_mono.
Qed.

Lemma wf_store s l k x : wf s → allocated s x → wf (store s l k x).
Proof.
  intros Hwf Hx. apply wf_put; [done|]. intros k' v Hv.
  apply (allocated_mono s); [rewrite dom_put; set_solver|].
  apply lookup_insert_Some in Hv as [[_ <-]|[_ Hv]]; [done|].
  pose proof (wf_prop s l k' Hwf) as H. unfold prop in H. by rewrite Hv in H.
Qed.

Lemma wf_add_request r s : wf s → wf (add_request r s).
Proof. by intros [??]. Qed.

Lemma evolves_refl L W s : evolves L W s s.
Proof. by split. Qed.

Lemma evolves_trans L W s1 s2 s3 :
  evolves L W s1 s2 → evolves L W s2 s3 → evolves L W s1 s3.
Proof.
  intros [P1 R1 D1 L1 K1] [P2 R2 D2 L2 K2]. split.
  - congruence.
  - congruence.
  - set_solver.
  - intros l Hl HL. rewrite L2, L1; auto.
  - intros l k Hl Hk. rewrite K2, K1; auto.
Qed.

Lemma evolves_weaken L L' W W' s s' :
  L ⊆ L' → W ⊆ W' → evolves L W s s' → evolves L' W' s s'.
Proof.
  intros HL HW [P R D Lo K]. split; [done|done|done|..].
  - intros l Hl Hn. apply Lo; [done|]. intros ?. apply Hn. by apply HL.
  - intros l k Hl Hn. apply K; [done|]. intros ?. apply Hn. by apply HW.
Qed.

Lemma evolves_put_fresh L W s l o :
  l ∉ dom (heap s) → evolves L W s (put s l o).
Proof.
  intros Hl. split; [done|done|..].
  - rewrite dom_put. set_solver.
  - intros l' Hl' _. unfold put; simpl. rewrite lookup_insert_ne; [done|set_solver].
  - intros l' k Hl' _. rewrite obj_at_put_ne; [done|set_solver].
Qed.

Lemma evolves_put_agree L W s l o :
  l ∈ L → (∀ k, k ∉ W → o !! k = obj_at s l !! k) → evolves L W s (put s l o).
Proof.
  intros Hl Ho. split; [done|done|..].
  - rewrite dom_put. set_solver.
  - intros l' _ Hl'. unfold put; simpl. rewrite lookup_insert_ne; [done|set_solver].
  - intros l' k _ Hk. destruct (decide (l = l')) as [<-|Hne].
    + rewrite obj_at_put_eq. auto.
    + by rewrite obj_at_put_ne.
Qed.

Lemma evolves_store L W s l k x :
  l ∈ L → k ∈ W → evolves L W s (store s l k x).
Proof.
  intros Hl Hk. apply evolves_put_agree; [done|].
  intros k' Hk'. rewrite lookup_insert_ne; [done|]. intros ->. done.
Qed.

Lemma evolves_prop L W s s' l k :
  evolves L W s s' → l ∈ dom (heap s) → k ∉ W → prop s' l k = prop s l k.
Proof. intros H Hl Hk. unfold prop. by rewrite (ev_keys _ _ _ _ H). Qed.

Lemma evolves_lookup_key L W s s' v k :
  evolves L W s s' → allocated s v → k ∉ W →
  lookup_key s' v k = lookup_key s v k.
Proof. destruct v; simpl; eauto using evolves_prop. Qed.

Lemma evolves_is_node L W s s' :
  wf s → evolves L W s s' → "release" ∉ W → "name" ∉ W →
  is_node s' = is_node s.
Proof.
  intros Hwf H Hr Hn. unfold is_node. rewrite (ev_process _ _ _ _ H).
  destruct (process s) as [p|] eqn:Hp; [|done].
  assert (allocated s p) as Ha. { destruct Hwf as [_ Hw]. by rewrite Hp in Hw. }
  rewrite (evolves_lookup_key _ _ _ _ _ _ H Ha Hr).
  rewrite (evolves_lookup_key _ _ _ _ _ _ H (wf_lookup_key _ _ _ Hwf) Hn).
  done.
Qed.

Lemma evolves_process_version L W s s' :
  wf s → evolves L W s s' → "version" ∉ W →
  process_version s' = process_version s.
Proof.
  intros Hwf H Hv. unfold process_version. rewrite (ev_process _ _ _ _ H).
  destruct (process s) as [p|] eqn:Hp; [|done].
  apply (evolves_lookup_key _ _ _ _ _ _ H); [|done].
  destruct Hwf as [_ Hw]. by rewrite Hp in Hw.
Qed.

Lemma runs_ret {A} (a : A) s Q : Q a s → runs (ret a) s Q.
Proof. intros. by exists a, s. Qed.

Lemma runs_bind {A B} (m : M A) (k : A → M B) s Q :
  runs m s (λ a s1, runs (k a) s1 Q) → runs (bind m k) s Q.
Proof.
  intros (a & s1 & Hm & b & s2 & Hk & HQ). exists b, s2.
  unfold bind. by rewrite Hm.
Qed.

Lemma runs_eq {A} (m : M A) s a s' (Q : A → state → Prop) :
  m s = (Ret a, s') → Q a s' → runs m s Q.
Proof. intros. by exists a, s'. Qed.

Lemma runs_weaken {A} (m : M A) s (Q Q' : A → state → Prop) :
  runs m s Q → (∀ a s', Q a s' → Q' a s') → runs m s Q'.
Proof. intros (a & s' & Hm & Hq) HQ. exists a, s'. auto. Qed.

Lemma runs_get_prop l k s Q : Q (prop s l k) s → runs (get_prop (VObj l) k) s Q.
Proof. intros. by eapply runs_eq. Qed.

Lemma runs_set_prop l k x s Q :
  Q tt (store s l k x) → runs (set_prop (VObj l) k x) s Q.
Proof. intros. by eapply runs_eq. Qed.

Lemma runs_alloc o s Q :
  (∀ l, l ∉ dom (heap s) → Q (VObj l) (put s l o)) → runs (alloc o) s Q.
Proof. intros H. eapply runs_eq; [done|]. apply H, is_fresh. Qed.

Lemma sat_bind {A B} (m : M A) (k : A → M B) s Φ :
  runs m s (λ a s1, sat (k a) s1 Φ) → sat (bind m k) s Φ.
Proof. intros (a & s1 & Hm & Hk). unfold sat, bind in *. by rewrite Hm. Qed.

Lemma sat_eq {A} (m : M A) s o s' (Φ : outcome A → state → Prop) :
  m s = (o, s') → Φ o s' → sat m s Φ.
Proof. intros Hm H. unfold sat. by rewrite Hm. Qed.

Lemma sat_runs {A} (m : M A) s (Q : A → state → Prop) :
  sat m s (λ o s', match o with Ret a => Q a s' | Throw _ => False end) →
  runs m s Q.
Proof.
  unfold sat, runs. destruct (m s) as [[a|e] s']; simpl; [|done].
  intros. by exists a, s'.
Qed.

Lemma runs_sat {A} (m : M A) s (Q : A → state → Prop) :
  runs m s Q →
  sat m s (λ o s', match o with Ret a => Q a s' | Throw _ => False end).
Proof. intros (a & s' & Hm & HQ). by eapply sat_eq. Qed.

(** ** Strings *)

Lemma append_assoc (a b c : string) : (a +:+ b) +:+ c = a +:+ b +:+ c.
Proof.
  induction a as [|x a IH]; [done|].
  change (String x ((a +:+ b) +:+ c) = String x (a +:+ b +:+ c)). by rewrite IH.
Qed.

Lemma append_empty_r (a : string) : a +:+ "" = a.
Proof.
  induction a as [|x a IH]; [done|].
  change (String x (a +:+ "") = String x a). by rewrite IH.
Qed.

Lemma split_colon_first h : split_colon h !! 0%nat = Some (before_colon h).
Proof.
  induction h as [|c r IH]; simpl; [done|].
  destruct (Ascii.eqb c colon); [done|].
  destruct (split_colon r) as [|x xs]; simpl in *; congruence.
Qed.

Lemma split_colon_second h :
  split_colon h !! 1%nat = before_colon <$> after_colon h.
Proof.
  induction h as [|c r IH]; simpl; [done|].
  destruct (Ascii.eqb c colon); simpl.
  - apply split_colon_first.
  - pose proof (split_colon_first r) as H0.
    destruct (split_colon r) as [|x xs]; simpl in *; [done|]. exact IH.
Qed.

Lemma createURL_spec s l :
  host_ok (prop s l "host") = true →
  createURL (VObj l) s =
    (Ret (derived_baseURL (to_str (prop s l "defaultHostname"))
            (prop s l "insecure") (prop s l "host") (prop s l "space")), s).
Proof.
  intros Hh. unfold createURL, bind; simpl.
  unfold derived_baseURL, hostname_of, port_of, scheme_of, default_port.
  set (dh := prop s l "defaultHostname").
  set (ins := prop s l "insecure"). set (sp := prop s l "space").
  assert (to_str (VNum 80) = "80" ∧ to_str (VNum 443) = "443") as [E80 E443]
    by (by vm_compute).
  destruct (prop s l "host") as [| |b|n|h|l'] eqn:Hhost; simpl in *;
    try discriminate Hh.
  1,2,3,4:
    try (destruct b; [discriminate Hh|]);
    try (destruct (n =? 0); [|discriminate Hh]);
    simpl; unfold ret; do 2 f_equal;
    destruct (truthy ins), (truthy sp); simpl;
    rewrite ?E80, ?E443, ?append_assoc, ?append_empty_r; simpl;
    by rewrite ?append_assoc.
  destruct (String.eqb h "") eqn:He; simpl.
  - apply String.eqb_eq in He as ->. unfold ret. do 2 f_equal.
    destruct (truthy ins), (truthy sp); simpl;
    rewrite ?E80, ?E443, ?append_assoc, ?append_empty_r; simpl;
    by rewrite ?append_assoc.
  - unfold ret; simpl.
    rewrite (split_colon_first h), (split_colon_second h).
    simpl. do 2 f_equal.
    destruct (after_colon h) as [p|]; simpl;
    repeat match goal with
    | |- context [String.eqb ?a ?b] => destruct (String.eqb a b); simpl
    end;
    destruct (truthy ins), (truthy sp); simpl;
    rewrite ?E80, ?E443, ?append_assoc, ?append_empty_r; simpl;
    by rewrite ?append_assoc.
Qed.

(** ** The default headers, as the source fills them *)

Lemma get_prop_truthy v k s :
  truthy v = true → get_prop v k s = (Ret (lookup_key s v k), s).
Proof. by destruct v. Qed.

Lemma get_prop_not_nullish v k s :
  nullish v = false → get_prop v k s = (Ret (lookup_key s v k), s).
Proof. by destruct v. Qed.

Lemma node_probe_spec s :
  is_Some (process s) → node_probe s = (Ret (is_node s), s).
Proof.
  intros [p Hp]. unfold node_probe, read_process, bind, is_node. rewrite Hp.
  destruct (truthy p) eqn:Tp; [|done]. rewrite (get_prop_truthy _ _ _ Tp).
  destruct (truthy (lookup_key s p "release")) eqn:Tr; [|done].
  by rewrite (get_prop_truthy _ _ _ Tr).
Qed.

Lemma is_node_process s :
  is_node s = true → ∃ p, process s = Some p ∧ truthy p = true.
Proof.
  unfold is_node. destruct (process s) as [p|]; [|done].
  destruct (truthy p) eqn:Tp; [intros _; eauto|done].
Qed.

Lemma obj_at_store_same s l k x :
  obj_at (store s l k x) l = <[k := x]> (obj_at s l).
Proof. unfold store. by rewrite obj_at_put_eq. Qed.

Lemma dom_store s l k x : dom (heap (store s l k x)) = {[l]} ∪ dom (heap s).
Proof. apply dom_put. Qed.

Lemma put_put s l o o' : put (put s l o) l o' = put s l o'.
Proof. unfold put, set_heap; simpl. by rewrite insert_insert_eq. Qed.

Lemma fill_headers_spec s ld tok :
  wf s → is_Some (process s) →
  runs (set_prop (VObj ld) "Authorization" (VStr tok) ;;;
        let! node := node_probe in
        (if node then
           let! p := read_process in
           let! v := get_prop p "version" in
           set_prop (VObj ld) "user-agent" (VStr ("node.js/" +:+ to_str v)) ;;;
           set_prop (VObj ld) "Accept-Encoding" (VStr "gzip")
         else ret tt) ;;;
        ret (VObj ld)) s
    (λ v s', v = VObj ld ∧ wf s' ∧ dom (heap s') = {[ld]} ∪ dom (heap s) ∧
             evolves [ld] (written_headers s) s s' ∧
             obj_at s' ld =
               node_headers s (<["Authorization" := VStr tok]> (obj_at s ld))).
Proof.
  intros Hwf Hp.
  set (s1 := store s ld "Authorization" (VStr tok)).
  assert (wf s1) as Hwf1 by by apply wf_store.
  assert (evolves [ld] (written_headers s) s s1) as Hev1.
  { apply evolves_store; [set_solver|]. unfold written_headers. set_solver. }
  assert (is_node s1 = is_node s) as Hn1.
  { apply (evolves_is_node _ _ _ _ Hwf Hev1); unfold written_headers; solve_keys. }
  assert (process_version s1 = process_version s) as Hv1.
  { apply (evolves_process_version _ _ _ _ Hwf Hev1); unfold written_headers; solve_keys. }
  assert (is_Some (process s1)) as Hp1 by done.
  apply runs_bind, runs_set_prop. fold s1.
  apply runs_bind. eapply runs_eq; [by apply node_probe_spec|].
  rewrite Hn1. unfold node_headers.
  destruct (is_node s) eqn:Hnode.
  - destruct (is_node_process s1) as (p & Hps & Tp); [congruence|].
    apply runs_bind, runs_bind. eapply runs_eq.
    { unfold read_process. by rewrite Hps. }
    apply runs_bind. eapply runs_eq; [by apply get_prop_truthy|].
    replace (lookup_key s1 p "version") with (process_version s)
      by (rewrite <- Hv1; unfold process_version; by rewrite Hps).
    apply runs_bind, runs_set_prop, runs_set_prop, runs_ret.
    set (ua := VStr ("node.js/" +:+ to_str (process_version s))).
    split; [done|]. split; [by repeat (apply wf_store; [|done])|]. split.
    { unfold s1. rewrite !dom_store. set_solver. }
    split.
    + eapply evolves_trans; [exact Hev1|].
      eapply evolves_trans; apply evolves_store; unfold written_headers;
        rewrite ?Hnode; set_solver.
    + unfold s1. by rewrite !obj_at_store_same.
  - apply runs_bind, runs_ret, runs_ret.
    split; [done|]. split; [done|]. split.
    { unfold s1. by rewrite dom_store. }
    split; [done|]. unfold s1. by rewrite obj_at_store_same.
Qed.

Lemma createDefaultHeaders_spec s l :
  wf s → l ∈ dom (heap s) →
  dh_ok (prop s l "defaultHeaders") = true → is_Some (process s) →
  runs (createDefaultHeaders (VObj l)) s
    (λ v s', ∃ ld,
       v = VObj ld ∧ wf s' ∧ dom (heap s') = {[ld]} ∪ dom (heap s) ∧
       match prop s l "defaultHeaders" with
       | VObj x => ld = x
       | _ => ld ∉ dom (heap s)
       end ∧
       evolves [ld] (written_headers s) s s' ∧
       obj_at s' ld =
         node_headers s
           (<["Authorization" :=
                VStr ("Bearer " +:+ to_str (prop s l "accessToken"))]>
              (obj_at s ld))).
Proof.
  intros Hwf Hl Hok Hp. unfold createDefaultHeaders.
  apply runs_bind, runs_get_prop, runs_bind, runs_get_prop, runs_bind.
  destruct (truthy (prop s l "defaultHeaders")) eqn:Tdh.
  - destruct (prop s l "defaultHeaders") as [| |b|n|h|x] eqn:Hdh;
      try discriminate Tdh;
      try (unfold dh_ok in Hok; rewrite Tdh in Hok; discriminate Hok).
    apply runs_ret.
    eapply runs_weaken; [by apply fill_headers_spec|].
    intros v s' (-> & ? & ? & ? & ?). by exists x.
  - apply runs_alloc. intros ld Hld.
    set (s0 := put s ld ∅).
    assert (evolves [ld] [] s s0) as Hev0 by by apply evolves_put_fresh.
    assert (wf s0) as Hwf0.
    { apply wf_put; [done|]. intros k v Hv. by rewrite lookup_empty in Hv. }
    assert (is_node s0 = is_node s) as Hn0
      by (apply (evolves_is_node _ _ _ _ Hwf Hev0); set_solver).
    assert (process_version s0 = process_version s) as Hv0
      by (apply (evolves_process_version _ _ _ _ Hwf Hev0); set_solver).
    eapply runs_weaken; [by apply (fill_headers_spec s0)|].
    intros v s' (-> & ? & Hdom & Hev & Hobj). exists ld.
    split; [done|]. split; [done|]. split.
    { rewrite Hdom. unfold s0. rewrite dom_put. set_solver. }
    split.
    { destruct (prop s l "defaultHeaders"); try done. }
    split.
    + eapply evolves_trans.
      * eapply evolves_weaken; [| |exact Hev0]; set_solver.
      * unfold written_headers in *. by rewrite <- Hn0.
    + rewrite Hobj. unfold node_headers. rewrite Hn0, Hv0.
      unfold s0. by rewrite obj_at_put_eq, (obj_at_fresh s ld Hld).
Qed.

(** ** lodash [assign] *)

Lemma assign_object_target s lt source :
  assign (VObj lt) source s =
    (Ret (VObj lt),
     put s lt ((if truthy source then props_of s source else ∅) ∪ obj_at s lt)).
Proof. by destruct source as [| |[]|n|h|x]; unfold assign, bind; simpl; try destruct (negb _). Qed.

Lemma assign_object_source s target ls :
  ls ∈ dom (heap s) →
  runs (assign target (VObj ls)) s
    (λ v s', ∃ lt,
       v = VObj lt ∧
       match target with
       | VObj x => lt = x
       | _ => lt ∉ dom (heap s)
       end ∧
       s' = put s lt (obj_at s ls ∪ props_of s target)).
Proof.
  intros Hls.
  destruct target as [| |b|n|h|x];
    try (eapply runs_eq; [reflexivity|]; exists x; by split);
    (eapply runs_eq; [reflexivity|]);
    (exists (fresh (dom (heap s))); split; [done|]; split; [apply is_fresh|]);
    rewrite put_put, obj_at_put_eq, obj_at_put_ne; try done;
    intros E; apply (is_fresh (dom (heap s))); by rewrite E.
Qed.

Lemma wf_obj_lookup s l k v : wf s → obj_at s l !! k = Some v → allocated s v.
Proof.
  intros Hwf Hv. pose proof (wf_prop s l k Hwf) as H.
  unfold prop in H. by rewrite Hv in H.
Qed.

Lemma index_props_lookup i h k v :
  index_props i h !! k = Some v → ∃ c, v = VStr c.
Proof.
  revert i. induction h as [|c r IH]; intros i; simpl.
  - by rewrite lookup_empty.
  - intros [[_ <-]|[_ H]]%lookup_insert_Some; eauto.
Qed.

Lemma props_of_allocated s v k x :
  wf s → props_of s v !! k = Some x → allocated s x.
Proof.
  intros Hwf. destruct v; simpl; try by rewrite lookup_empty.
  - intros (c & ->)%index_props_lookup. done.
  - by apply wf_obj_lookup.
Qed.

Lemma accepted_inv s l :
  accepted s l = true →
  truthy (prop s l "accessToken") = true ∧ truthy (prop s l "space") = true ∧
  host_ok (prop s l "host") = true ∧ dh_ok (prop s l "defaultHeaders") = true ∧
  is_Some (process s).
Proof.
  unfold accepted. rewrite !andb_true_iff, bool_decide_eq_true. tauto.
Qed.

Lemma node_headers_lookup_str s t k v :
  node_headers s (<["Authorization" := VStr t]> ∅) !! k = Some v → ∃ c, v = VStr c.
Proof.
  unfold node_headers. destruct (is_node s);
    repeat (intros [[_ <-]|[_ H]]%lookup_insert_Some; [eauto|revert H]);
    by rewrite lookup_empty.
Qed.

Lemma createURL_bad_host s l :
  host_ok (prop s l "host") = false →
  createURL (VObj l) s = (Throw (NotAFunction "split"), s).
Proof.
  intros Hh. unfold createURL, bind; simpl.
  destruct (prop s l "host") as [| |[]|n|h|x]; simpl in *; try done.
  by destruct (n =? 0).
Qed.

Lemma createDefaultHeaders_bad s l :
  dh_ok (prop s l "defaultHeaders") = false →
  createDefaultHeaders (VObj l) s =
    (Throw (CannotCreateProperty (prop s l "defaultHeaders") "Authorization"), s).
Proof.
  intros Hd. unfold createDefaultHeaders, bind; simpl.
  destruct (prop s l "defaultHeaders") as [| |[]|n|h|x]; simpl in *; try done.
  - by destruct (n =? 0).
  - by destruct (String.eqb h "").
Qed.

Lemma createDefaultHeaders_undeclared s l :
  dh_ok (prop s l "defaultHeaders") = true → process s = None →
  ∃ s', createDefaultHeaders (VObj l) s = (Throw (ReferenceError "process"), s').
Proof.
  intros Hd Hp. unfold createDefaultHeaders, bind; simpl.
  destruct (truthy (prop s l "defaultHeaders")) eqn:T.
  - destruct (prop s l "defaultHeaders") as [| |b|n|h|x] eqn:E;
      try discriminate T;
      try (unfold dh_ok in Hd; rewrite T in Hd; discriminate Hd).
    unfold node_probe, read_process, bind; simpl. rewrite Hp. eauto.
  - unfold node_probe, read_process, bind; simpl. rewrite Hp. eauto.
Qed.

Section ClientSpec.

Variable version : string.
Variable getUserAgentHeader : string → value → value → string.

Lemma createClient_prefix s l (Φ : outcome ClientAPI → state → Prop) :
  wf s →
  truthy (prop s l "accessToken") = true → truthy (prop s l "space") = true →
  (∀ s4 lh,
     normalized
       (getUserAgentHeader ("contentful.js/" +:+ version)
          (prop s l "application") (prop s l "integration"))
       s l s4 lh →
     sat (let! client := createNonAxiosHTTPClient (VObj l) in
          ret {| http := client;
                 shouldLinksResolve := resolve_flag (obj_at s l) |}) s4 Φ) →
  sat (createClient version getUserAgentHeader (VObj l)) s Φ.
Proof.
  intros Hwf Tat Tsp HΦ.
  assert (l ∈ dom (heap s)) as Hl by by eapply prop_allocated.
  set (ua := getUserAgentHeader _ _ _) in *.
  set (lit := ({[ "Content-Type" := VStr content_type;
                  "X-Contentful-User-Agent" := VStr ua ]} : gmap string value)).
  unfold createClient.
  apply sat_bind, runs_get_prop. rewrite Tat. cbn [negb].
  apply sat_bind, runs_get_prop. rewrite Tsp. cbn [negb].
  apply sat_bind. eapply runs_eq; [reflexivity|].
  assert (∃ rl, (if bool_decide (is_Some (obj_at s l !! "resolveLinks"))
                 then get_prop (VObj l) "resolveLinks"
                 else ret (VBool true)) s = (Ret rl, s) ∧
                truthy rl = resolve_flag (obj_at s l)) as (rl & Hrl & Hflag).
  { unfold resolve_flag, get_prop, prop.
    destruct (obj_at s l !! "resolveLinks") as [v|] eqn:E.
    - rewrite bool_decide_eq_true_2 by eauto. exists v. by rewrite E.
    - rewrite bool_decide_eq_false_2 by (by intros [??]). by exists (VBool true). }
  apply sat_bind. eapply runs_eq; [exact Hrl|].
  apply sat_bind, runs_get_prop, sat_bind, runs_get_prop.
  fold ua. fold content_type. fold lit.
  (* params.defaultHostname = 'cdn.contentful.com' *)
  apply sat_bind, runs_set_prop.
  set (s1 := store s l "defaultHostname" (VStr "cdn.contentful.com")).
  assert (wf s1) as Hwf1 by by apply wf_store.
  assert (dom (heap s1) = dom (heap s)) as Hdom1.
  { unfold s1. rewrite dom_store. clear -Hl. set_solver. }
  (* params.headers = assign(params.headers, {...}) *)
  apply sat_bind, runs_get_prop.
  assert (prop s1 l "headers" = prop s l "headers") as Hhv1
    by (unfold s1; by rewrite prop_store_key_ne).
  rewrite Hhv1.
  set (hv := prop s l "headers") in *.
  apply sat_bind, runs_alloc. intros ll Hll.
  set (s2 := put s1 ll lit).
  assert (∀ k v, lit !! k = Some v → ∃ c, v = VStr c) as Hlit.
  { intros k v. unfold lit.
    intros [[_ <-]|[_ [_ <-]%lookup_singleton_Some]]%lookup_insert_Some; eauto. }
  assert (wf s2) as Hwf2.
  { apply wf_put; [done|]. intros k v [c ->]%Hlit. done. }
  assert (dom (heap s2) = {[ll]} ∪ dom (heap s)) as Hdom2.
  { unfold s2. by rewrite dom_put, Hdom1. }
  assert (ll ∈ dom (heap s2)) as Hll2 by (rewrite Hdom2; clear; set_solver).
  apply sat_bind. eapply runs_weaken.
  { exact (assign_object_source s2 hv ll Hll2). }
  intros ? ? (lh & -> & Hlh & ->).
  replace (obj_at s2 ll) with lit by (unfold s2; by rewrite obj_at_put_eq).
  set (s3 := put s2 lh (lit ∪ props_of s2 hv)).
  assert (wf s3) as Hwf3.
  { apply wf_put; [done|]. intros k v Hv.
    apply (allocated_mono s2); [rewrite dom_put; clear; set_solver|].
    apply lookup_union_Some_raw in Hv as [Hv|[_ Hv]].
    - by apply Hlit in Hv as [c ->].
    - by eapply props_of_allocated. }
  assert (evolves [l; lh] ["headers"; "Content-Type"; "X-Contentful-User-Agent"]
            s2 s3) as Hev23.
  { destruct (decide (lh ∈ dom (heap s2))) as [Hin|Hout].
    - apply evolves_put_agree; [clear; set_solver|]. intros k Hk.
      assert (lit !! k = None) as Hnone.
      { unfold lit. rewrite lookup_insert_ne, lookup_singleton_ne; [done|..];
          intros <-; apply Hk; clear; set_solver. }
      rewrite lookup_union_r by done.
      destruct hv; try (exfalso; by apply Hlh). by subst.
    - by apply evolves_put_fresh. }
  apply sat_bind, runs_set_prop.
  set (s4 := store s3 l "headers" (VObj lh)).
  assert (dom (heap s3) = {[lh]} ∪ dom (heap s2)) as Hdom3 by apply dom_put.
  assert (lh ∈ dom (heap s3)) as Hlh3 by (rewrite Hdom3; clear; set_solver).
  assert (wf s4) as Hwf4 by (by apply wf_store).
  assert (evolves [l; lh] ["headers"; "Content-Type"; "X-Contentful-User-Agent"]
            s1 s4) as Hev14.
  { apply (evolves_trans _ _ s1 s2 s4); [by apply evolves_put_fresh|].
    apply (evolves_trans _ _ s2 s3 s4); [exact Hev23|].
    apply (evolves_store _ _ s3 l "headers"); clear; set_solver. }
  assert (evolves [l; lh]
            ["defaultHostname"; "headers"; "Content-Type"; "X-Contentful-User-Agent"]
            s s4) as Hev4.
  { apply (evolves_trans _ _ s s1 s4).
    - apply (evolves_store _ _ s l "defaultHostname"); clear; set_solver.
    - eapply evolves_weaken; [| |exact Hev14]; clear; set_solver. }
  assert (prop s4 l "defaultHostname" = VStr "cdn.contentful.com") as Hdh4.
  { rewrite (evolves_prop _ _ _ _ l "defaultHostname" Hev14).
    - apply prop_store_eq.
    - by rewrite Hdom1.
    - notin_keys. }
  assert (dom (heap s4) = {[lh]} ∪ ({[ll]} ∪ dom (heap s))) as Hdom4.
  { unfold s4. rewrite dom_store, Hdom3, Hdom2. clear -Hl. set_solver. }
  assert (lh ∈ dom (heap s4)) as Hlh4 by (rewrite Hdom4; clear; set_solver).
  assert (obj_at s4 lh !! "Content-Type" = Some (VStr content_type) ∧
          obj_at s4 lh !! "X-Contentful-User-Agent" = Some (VStr ua))
    as [Hct4 Hua4].
  { unfold s4. rewrite !obj_at_store_key_ne by done.
    unfold s3. rewrite obj_at_put_eq. split.
    - apply lookup_union_Some_l. unfold lit. by rewrite lookup_insert_eq.
    - apply lookup_union_Some_l. unfold lit.
      by rewrite lookup_insert_ne, lookup_singleton_eq. }
  rewrite Hflag. apply (HΦ s4 lh). split; try done.
  - clear -Hlh Hdom2. unfold hv in Hlh.
    destruct (prop s l "headers"); try done;
      intros Hin; apply Hlh; rewrite Hdom2; clear -Hin; set_solver.
  - apply prop_store_eq.
Qed.

Lemma createClient_spec s l :
  wf s → accepted s l = true →
  ∃ api s' lh ld,
    createClient version getUserAgentHeader (VObj l) s = (Ret api, s') ∧
    client_created
      (getUserAgentHeader ("contentful.js/" +:+ version)
         (prop s l "application") (prop s l "integration"))
      s l api s' lh ld.
Proof.
  intros Hwf (Tat & Tsp & Hhost & Hdh & Hproc)%accepted_inv.
  assert (l ∈ dom (heap s)) as Hl by by eapply prop_allocated.
  set (ua := getUserAgentHeader _ _ _).
  cut (runs (createClient version getUserAgentHeader (VObj l)) s
         (λ api s', ∃ lh ld, client_created ua s l api s' lh ld)).
  { intros (api & s' & ? & lh & ld & ?). by exists api, s', lh, ld. }
  apply sat_runs, createClient_prefix; [done|done|done|].
  fold ua. intros s4 lh [Hwf4 Hev4 Hlh Hlh4 Hdh4 Hhdr4 Hct4 Hua4].
  apply runs_sat.
  assert (∀ k, k ∉ ["defaultHostname"; "headers"; "Content-Type";
                    "X-Contentful-User-Agent"] →
               prop s4 l k = prop s l k) as Hsame
    by (intros k Hk; by apply (evolves_prop _ _ _ _ _ _ Hev4)).
  assert (prop s4 l "host" = prop s l "host") as Hhost4 by (apply Hsame; notin_keys).
  assert (prop s4 l "insecure" = prop s l "insecure") as Hins4
    by (apply Hsame; notin_keys).
  assert (prop s4 l "space" = prop s l "space") as Hsp4 by (apply Hsame; notin_keys).
  assert (prop s4 l "accessToken" = prop s l "accessToken") as Hat4
    by (apply Hsame; notin_keys).
  assert (prop s4 l "defaultHeaders" = prop s l "defaultHeaders") as Hdhs4
    by (apply Hsame; notin_keys).
  assert (l ∈ dom (heap s4)) as Hl4 by (by apply (ev_dom _ _ _ _ Hev4)).
  assert (is_node s4 = is_node s) as Hn4
    by (apply (evolves_is_node _ _ _ _ Hwf Hev4); notin_keys).
  assert (process_version s4 = process_version s) as Hv4
    by (apply (evolves_process_version _ _ _ _ Hwf Hev4); notin_keys).
  assert (is_Some (process s4)) as Hproc4
    by (by rewrite (ev_process _ _ _ _ Hev4)).
  (* createNonAxiosHTTPClient(params) *)
  unfold createNonAxiosHTTPClient.
  apply runs_bind, runs_bind. eapply runs_eq.
  { apply createURL_spec. by rewrite Hhost4. }
  rewrite Hdh4, Hhost4, Hins4, Hsp4. cbn [to_str].
  apply runs_bind. eapply runs_weaken.
  { apply createDefaultHeaders_spec; [done|done|by rewrite Hdhs4|done]. }
  intros ? s5 (ld & -> & Hwf5 & Hdom5 & Hld & Hev5 & Hobj).
  rewrite Hdhs4 in Hld. rewrite Hat4 in Hobj.
  unfold written_headers in Hev5. unfold node_headers in Hobj.
  rewrite Hn4 in Hev5, Hobj. rewrite Hv4 in Hobj.
  fold (written_headers s) in Hev5.
  change (obj_at s5 ld =
            node_headers s
              (<["Authorization" :=
                   VStr ("Bearer " +:+ to_str (prop s l "accessToken"))]>
                 (obj_at s4 ld))) in Hobj.
  apply runs_ret, runs_ret. exists lh, ld.
  split.
  - done.
  - apply (evolves_trans _ _ s s4 s5).
    + eapply evolves_weaken; [| |exact Hev4]; incl_keys.
    + eapply evolves_weaken; [| |exact Hev5]; incl_keys.
  - done.
  - done.
  - done.
  - done.
  - clear -Hld Hev4.
    destruct (prop s l "defaultHeaders"); try done;
      intros Hin; apply Hld; by apply (ev_dom _ _ _ _ Hev4).
  - rewrite Hdom5. clear -Hlh4. set_solver.
  - rewrite Hdom5. clear. set_solver.
  - rewrite (evolves_prop _ _ _ _ l "defaultHostname" Hev5); [done|done|].
    notin_keys.
  - rewrite (evolves_prop _ _ _ _ l "headers" Hev5); [done|done|notin_keys].
  - rewrite (ev_keys _ _ _ _ Hev5); [done|done|notin_keys].
  - rewrite (ev_keys _ _ _ _ Hev5); [done|done|notin_keys].
  - exists (obj_at s4 ld). split; [done|]. intros Tdh.
    apply obj_at_fresh. destruct (prop s l "defaultHeaders"); try done.
  - intros Tdh.
    assert (ld ∉ dom (heap s4)) as Hfresh
      by (destruct (prop s l "defaultHeaders"); done).
    split.
    + intros l' k Hv. destruct (decide (l' = ld)) as [->|Hne].
      * rewrite Hobj, (obj_at_fresh s4 ld Hfresh) in Hv.
        by apply node_headers_lookup_str in Hv as [c ?].
      * assert (obj_at s5 l' = obj_at s4 l') as E.
        { unfold obj_at. destruct (decide (l' ∈ dom (heap s4))) as [Hin|Hout].
          - rewrite (ev_locs _ _ _ _ Hev5); [done|done|].
            clear -Hne. set_solver.
          - rewrite (not_elem_of_dom_1 _ _ Hout).
            rewrite (not_elem_of_dom_1 (heap s5) l'); [done|].
            rewrite Hdom5. clear -Hne Hout. set_solver. }
        rewrite E in Hv. apply (wf_obj_lookup _ _ _ _ Hwf4) in Hv. done.
    + rewrite (ev_process _ _ _ _ Hev5). intros Hp.
      destruct Hwf4 as [_ Hw]. rewrite Hp in Hw. done.
Qed.

(** *** The parameters [createClient] does not accept *)

Lemma createClient_no_token s l :
  truthy (prop s l "accessToken") = false →
  createClient version getUserAgentHeader (VObj l) s =
    (Throw (TypeError "Expected parameter accessToken"), s).
Proof. intros H. unfold createClient, bind. simpl. by rewrite H. Qed.

Lemma createClient_no_space s l :
  truthy (prop s l "accessToken") = true →
  truthy (prop s l "space") = false →
  createClient version getUserAgentHeader (VObj l) s =
    (Throw (TypeError "Expected parameter space"), s).
Proof.
  intros H1 H2. unfold createClient, bind. simpl. rewrite H1. simpl.
  by rewrite H2.
Qed.

Lemma createClient_bad_host s l :
  wf s →
  truthy (prop s l "accessToken") = true → truthy (prop s l "space") = true →
  host_ok (prop s l "host") = false →
  ∃ s', createClient version getUserAgentHeader (VObj l) s =
          (Throw (NotAFunction "split"), s').
Proof.
  intros Hwf Tat Tsp Hhost.
  cut (sat (createClient version getUserAgentHeader (VObj l)) s
         (λ o _, o = Throw (NotAFunction "split"))).
  { unfold sat. destruct (createClient _ _ _ s) as [o s']. simpl. intros ->. eauto. }
  apply createClient_prefix; [done|done|done|]. intros s4 lh Hnz.
  assert (prop s4 l "host" = prop s l "host") as E.
  { apply (evolves_prop _ _ _ _ _ _ (nz_frame _ _ _ _ _ Hnz)); [|notin_keys].
    by eapply prop_allocated. }
  unfold sat, createNonAxiosHTTPClient, bind.
  by rewrite createURL_bad_host by (by rewrite E).
Qed.

Lemma createClient_bad_default_headers s l :
  wf s →
  truthy (prop s l "accessToken") = true → truthy (prop s l "space") = true →
  host_ok (prop s l "host") = true →
  dh_ok (prop s l "defaultHeaders") = false →
  ∃ s', createClient version getUserAgentHeader (VObj l) s =
          (Throw (CannotCreateProperty (prop s l "defaultHeaders")
                    "Authorization"), s').
Proof.
  intros Hwf Tat Tsp Hhost Hdh.
  cut (sat (createClient version getUserAgentHeader (VObj l)) s
         (λ o _, o = Throw (CannotCreateProperty (prop s l "defaultHeaders")
                              "Authorization"))).
  { unfold sat. destruct (createClient _ _ _ s) as [o s']. simpl. intros ->. eauto. }
  apply createClient_prefix; [done|done|done|]. intros s4 lh Hnz.
  assert (l ∈ dom (heap s)) as Hl by by eapply prop_allocated.
  pose proof (nz_frame _ _ _ _ _ Hnz) as Hev.
  assert (prop s4 l "host" = prop s l "host") as E1
    by (apply (evolves_prop _ _ _ _ _ _ Hev); [done|notin_keys]).
  assert (prop s4 l "defaultHeaders" = prop s l "defaultHeaders") as E2
    by (apply (evolves_prop _ _ _ _ _ _ Hev); [done|notin_keys]).
  unfold sat, createNonAxiosHTTPClient, bind.
  rewrite createURL_spec by (by rewrite E1).
  rewrite createDefaultHeaders_bad by (by rewrite E2). by rewrite E2.
Qed.

Lemma createClient_undeclared_process s l :
  wf s →
  truthy (prop s l "accessToken") = true → truthy (prop s l "space") = true →
  host_ok (prop s l "host") = true →
  dh_ok (prop s l "defaultHeaders") = true →
  process s = None →
  ∃ s', createClient version getUserAgentHeader (VObj l) s =
          (Throw (ReferenceError "process"), s').
Proof.
  intros Hwf Tat Tsp Hhost Hdh Hp.
  cut (sat (createClient version getUserAgentHeader (VObj l)) s
         (λ o _, o = Throw (ReferenceError "process"))).
  { unfold sat. destruct (createClient _ _ _ s) as [o s']. simpl. intros ->. eauto. }
  apply createClient_prefix; [done|done|done|]. intros s4 lh Hnz.
  assert (l ∈ dom (heap s)) as Hl by by eapply prop_allocated.
  pose proof (nz_frame _ _ _ _ _ Hnz) as Hev.
  assert (prop s4 l "host" = prop s l "host") as E1
    by (apply (evolves_prop _ _ _ _ _ _ Hev); [done|notin_keys]).
  assert (prop s4 l "defaultHeaders" = prop s l "defaultHeaders") as E2
    by (apply (evolves_prop _ _ _ _ _ _ Hev); [done|notin_keys]).
  assert (process s4 = None) as Hp4 by (by rewrite (ev_process _ _ _ _ Hev)).
  unfold sat, createNonAxiosHTTPClient, bind.
  rewrite createURL_spec by (by rewrite E1).
  destruct (createDefaultHeaders_undeclared s4 l) as [s5 ->];
    [by rewrite E2|done|done].
Qed.

(** [accepted] is exactly the condition under which [createClient]
    returns. *)
Lemma createClient_rejects s l :
  wf s → accepted s l = false →
  ∃ e s', createClient version getUserAgentHeader (VObj l) s = (Throw e, s').
Proof.
  intros Hwf Hacc. unfold accepted in Hacc.
  destruct (truthy (prop s l "accessToken")) eqn:Tat;
    [|eexists _, _; by apply createClient_no_token].
  destruct (truthy (prop s l "space")) eqn:Tsp;
    [|eexists _, _; by apply createClient_no_space].
  destruct (host_ok (prop s l "host")) eqn:Hh;
    [|destruct (createClient_bad_host s l) as [s' ?]; eauto].
  destruct (dh_ok (prop s l "defaultHeaders")) eqn:Hd;
    [|destruct (createClient_bad_default_headers s l) as [s' ?]; eauto].
  simpl in Hacc. apply bool_decide_eq_false in Hacc.
  destruct (createClient_undeclared_process s l) as [s' ?]; eauto.
  destruct (process s); [|done]. destruct Hacc. eauto.
Qed.

(** X1: on a params object [createClient] returns a client exactly when
    the parameters are [accepted]: [accessToken] and [space] truthy, [host]
    falsy or a string, [defaultHeaders] falsy or an object, and [process]
    declared.  In every other case it throws. *)
Lemma createClient_returns_iff s l :
  wf s →
  (∃ api s', createClient version getUserAgentHeader (VObj l) s = (Ret api, s'))
  ↔ accepted s l = true.
Proof.
  intros Hwf. split.
  - intros (api & s' & Hrun). destruct (accepted s l) eqn:Hacc; [done|].
    destruct (createClient_rejects s l Hwf Hacc) as (e & s2 & Hthrow). congruence.
  - intros Hacc. destruct (createClient_spec s l Hwf Hacc) as (api & s' & _ & _ & ? & _).
    eauto.
Qed.

End ClientSpec.

Lemma props_of_put_fresh s l o v :
  l ∉ dom (heap s) → allocated s v → props_of (put s l o) v = props_of s v.
Proof.
  intros Hl Hv. destruct v; try done. simpl in *.
  apply obj_at_put_ne. intros ->. done.
Qed.

Lemma lookup_key_put_fresh s l o v k :
  l ∉ dom (heap s) → allocated s v →
  lookup_key (put s l o) v k = lookup_key s v k.
Proof.
  intros Hl Hv. destruct v; try done. simpl in *. unfold prop.
  rewrite obj_at_put_ne; [done|]. intros ->. done.
Qed.

Lemma get_spec c path options s ld :
  wf s → defaultHeaders c = VObj ld → ld ∈ dom (heap s) →
  nullish options = false → allocated s options →
  ∃ r s',
    get c path options s = (Ret r, s') ∧
    r = {| req_url := baseURL c +:+ to_str path;
           req_query := lookup_key s options "query";
           req_headers := per_call s options ∪ obj_at s ld |} ∧
    requests s' = (requests s ++ [r])%list ∧
    process s' = process s ∧
    (∀ l, l ∈ dom (heap s) → heap s' !! l = heap s !! l) ∧
    wf s'.
Proof.
  intros Hwf Hc Hld Hnull Hopt.
  cut (runs (get c path options) s (λ r s',
         r = {| req_url := baseURL c +:+ to_str path;
                req_query := lookup_key s options "query";
                req_headers := per_call s options ∪ obj_at s ld |} ∧
         requests s' = (requests s ++ [r])%list ∧
         process s' = process s ∧
         (∀ l, l ∈ dom (heap s) → heap s' !! l = heap s !! l) ∧
         wf s')).
  { intros (r & s' & ? & ?). by exists r, s'. }
  unfold get. rewrite Hc. unfold clone.
  apply runs_bind, runs_bind. eapply runs_eq; [reflexivity|].
  apply runs_alloc. intros l1 Hl1.
  set (s1 := put s l1 (obj_at s ld)).
  assert (wf s1) as Hwf1.
  { apply wf_put; [done|]. intros k v Hv.
    apply (allocated_mono s); [rewrite dom_put; clear; set_solver|].
    by eapply wf_obj_lookup. }
  assert (dom (heap s1) = {[l1]} ∪ dom (heap s)) as Hdom1 by apply dom_put.
  assert (l1 ∈ dom (heap s1)) as Hl11 by (rewrite Hdom1; clear; set_solver).
  assert (∀ k, lookup_key s1 options k = lookup_key s options k) as Hopt1
    by (intros k; by apply lookup_key_put_fresh).
  apply runs_bind. eapply runs_eq; [by apply get_prop_not_nullish|].
  rewrite !Hopt1.
  set (oh := lookup_key s options "headers").
  assert (allocated s oh) as Hoh by by apply wf_lookup_key.
  unfold per_call. fold oh.
  destruct (truthy oh) eqn:Toh.
  - apply runs_bind, runs_ret.
    apply runs_bind. eapply runs_eq; [apply assign_object_target|].
    rewrite Toh.
    replace (props_of s1 oh) with (props_of s oh)
      by (symmetry; by apply props_of_put_fresh).
    replace (obj_at s1 l1) with (obj_at s ld) by (symmetry; apply obj_at_put_eq).
    replace (put s1 l1 (props_of s oh ∪ obj_at s ld))
      with (put s l1 (props_of s oh ∪ obj_at s ld)) by (symmetry; apply put_put).
    set (s2 := put s l1 (props_of s oh ∪ obj_at s ld)).
    apply runs_bind. eapply runs_eq; [by apply get_prop_not_nullish|].
    replace (lookup_key s2 options "query") with (lookup_key s options "query")
      by (symmetry; by apply lookup_key_put_fresh).
    apply runs_bind. eapply runs_eq; [reflexivity|].
    replace (obj_at s2 l1) with (props_of s oh ∪ obj_at s ld)
      by (symmetry; apply obj_at_put_eq).
    eapply runs_eq; [reflexivity|].
    split; [done|]. split; [done|]. split; [done|]. split.
    + intros l Hl. simpl. rewrite lookup_insert_ne; [done|]. intros ->. done.
    + apply wf_add_request, wf_put; [done|]. intros k v Hv.
      apply (allocated_mono s); [rewrite dom_put; clear; set_solver|].
      apply lookup_union_Some_raw in Hv as [Hv|[_ Hv]].
      * by eapply props_of_allocated.
      * by eapply wf_obj_lookup.
  - apply runs_bind, runs_alloc. intros l2 Hl2.
    assert (l1 ≠ l2) as Hne by (intros ->; done).
    assert (l2 ∉ dom (heap s)) as Hl2s.
    { intros Hin. apply Hl2. rewrite Hdom1. clear -Hin. set_solver. }
    set (s1' := put s1 l2 ∅).
    apply runs_bind. eapply runs_eq; [apply assign_object_target|].
    cbn [truthy props_of].
    replace (obj_at s1' l2) with (∅ : gmap string value)
      by (symmetry; apply obj_at_put_eq).
    replace (obj_at s1' l1) with (obj_at s ld).
    2:{ unfold s1'. rewrite obj_at_put_ne by done. symmetry. apply obj_at_put_eq. }
    rewrite (left_id_L ∅ (∪)).
    set (s2 := put s1' l1 (obj_at s ld)).
    assert (∀ k, lookup_key s2 options k = lookup_key s options k) as Hopt2.
    { intros k. rewrite <- Hopt1. unfold s2, s1'.
      destruct options; try done. simpl in *. unfold prop.
      rewrite !obj_at_put_ne; [done|..]; intros ->; done. }
    apply runs_bind. eapply runs_eq; [by apply get_prop_not_nullish|].
    rewrite Hopt2.
    apply runs_bind. eapply runs_eq; [reflexivity|].
    replace (obj_at s2 l1) with (obj_at s ld) by (symmetry; apply obj_at_put_eq).
    eapply runs_eq; [reflexivity|].
    split; [done|]. split; [done|]. split; [done|]. split.
    + intros l Hl. simpl. rewrite !lookup_insert_ne; [done|..]; intros ->; done.
    + apply wf_add_request, wf_put.
      * apply wf_put; [done|]. intros k v Hv. by rewrite lookup_empty in Hv.
      * intros k v Hv.
        apply (allocated_mono s); [rewrite !dom_put; clear; set_solver|].
        by eapply wf_obj_lookup.
Qed.

Lemma wf_node_runtime_tok : wf (node_runtime params_tok).
Proof. apply (bool_decide_unpack _). by vm_compute. Qed.

Lemma prop_VObj_lookup s l k x :
  prop s l k = VObj x → obj_at s l !! k = Some (VObj x).
Proof. unfold prop. destruct (obj_at s l !! k); simpl; congruence. Qed.

Lemma dh_ok_falsy s l :
  dh_ok (prop s l "defaultHeaders") = true →
  (∀ y, prop s l "defaultHeaders" ≠ VObj y) →
  truthy (prop s l "defaultHeaders") = false.
Proof.
  intros Hok Hno. destruct (prop s l "defaultHeaders"); simpl in *;
    try done; try (by apply negb_true_iff in Hok).
  by destruct (Hno l0).
Qed.

Section Claims.

Variable version : string.
Variable getUserAgentHeader : string → value → value → string.

(** C3: when [params.accessToken] is absent or falsy, [createClient]
    throws [TypeError('Expected parameter accessToken')]; when it is
    present and [params.space] is absent or falsy, it throws
    [TypeError('Expected parameter space')].  Either way the throw is
    the outcome of the call itself, no client is returned, and the store
    is exactly as before: nothing was written and no request was built. *)
Theorem createClient_missing_parameter s params :
  nullish params = false →
  (truthy (lookup_key s params "accessToken") = false →
   createClient version getUserAgentHeader params s =
     (Throw (TypeError "Expected parameter accessToken"), s)) ∧
  (truthy (lookup_key s params "accessToken") = true →
   truthy (lookup_key s params "space") = false →
   createClient version getUserAgentHeader params s =
     (Throw (TypeError "Expected parameter space"), s)).
Proof.
  intros Hn. split.
  - intros Hat. unfold createClient, bind.
    rewrite (get_prop_not_nullish _ _ _ Hn), Hat. done.
  - intros Hat Hsp. unfold createClient, bind.
    rewrite (get_prop_not_nullish _ _ _ Hn), Hat. cbn [negb].
    rewrite (get_prop_not_nullish _ _ _ Hn), Hsp. done.
Qed.

(** C4: the normalized [resolveLinks] flag follows the presence of the
    key: present, it is the truthiness of [params.resolveLinks]; absent,
    it is [true]. *)
Theorem createClient_resolveLinks s l :
  wf s → accepted s l = true →
  ∃ api s',
    createClient version getUserAgentHeader (VObj l) s = (Ret api, s') ∧
    (∀ v, obj_at s l !! "resolveLinks" = Some v →
          shouldLinksResolve api = truthy v) ∧
    (obj_at s l !! "resolveLinks" = None → shouldLinksResolve api = true).
Proof.
  intros Hwf Hacc.
  destruct (createClient_spec version getUserAgentHeader s l Hwf Hacc)
    as (api & s' & lh & ld & Hrun & Hcc).
  exists api, s'. split; [done|].
  rewrite (cc_flag _ _ _ _ _ _ _ Hcc). unfold resolve_flag.
  split; [intros v ->|intros ->]; done.
Qed.

(** C2, as amended: for accepted params the base URL is
    [{scheme}://{hostname}:{port}/spaces/{space}/], the scheme being
    [http] when [insecure] is truthy and [https] otherwise; the host
    name the text of [host] before its first colon when [host] is given
    and that text is not empty, else [cdn.contentful.com]; the port the
    text between the first and second colon of [host] when there is one
    and it is not empty, else 80 when [insecure] is truthy and 443
    otherwise. *)
Theorem createClient_baseURL s l :
  wf s → accepted s l = true →
  ∃ api s',
    createClient version getUserAgentHeader (VObj l) s = (Ret api, s') ∧
    baseURL (http api) =
      scheme_of (prop s l "insecure") +:+ "://" +:+
      hostname_of "cdn.contentful.com" (prop s l "host") +:+ ":" +:+
      port_of (prop s l "insecure") (prop s l "host") +:+ "/spaces/" +:+
      to_str (prop s l "space") +:+ "/".
Proof.
  intros Hwf Hacc.
  destruct (createClient_spec version getUserAgentHeader s l Hwf Hacc)
    as (api & s' & lh & ld & Hrun & Hcc).
  exists api, s'. split; [done|].
  rewrite (cc_url _ _ _ _ _ _ _ Hcc). unfold derived_baseURL.
  apply accepted_inv in Hacc as (_ & -> & _). done.
Qed.

(** C10: [get] called without [options] throws at once, on reading
    [options.headers]; its outcome is the exception, not a request (the
    thenable a caller would await), and no request has been built. *)
Theorem get_without_options c path s :
  (get c path VUndef s).1 = Throw (NullishAccess VUndef "headers") ∧
  requests (get c path VUndef s).2 = requests s.
Proof. destruct c as [url [| |b|n|h|l]]; done. Qed.

(** C5: [get] sends the per-call headers merged over a copy of the
    client's default headers: a key of [options.headers] wins, every
    other key comes from the defaults.  The call leaves the default
    header object as it was, so a later call without per-call headers
    sends exactly the defaults. *)
Theorem get_merges_over_copy c path options s ld :
  wf s → defaultHeaders c = VObj ld → ld ∈ dom (heap s) →
  nullish options = false → allocated s options →
  ∃ r s',
    get c path options s = (Ret r, s') ∧
    req_headers r = per_call s options ∪ obj_at s ld ∧
    (∀ k v, per_call s options !! k = Some v → req_headers r !! k = Some v) ∧
    (∀ k, per_call s options !! k = None →
          req_headers r !! k = obj_at s ld !! k) ∧
    obj_at s' ld = obj_at s ld ∧
    (∀ path2 options2,
       nullish options2 = false → allocated s' options2 →
       truthy (lookup_key s' options2 "headers") = false →
       ∃ r2 s2,
         get c path2 options2 s' = (Ret r2, s2) ∧
         req_headers r2 = obj_at s ld).
Proof.
  intros Hwf Hc Hld Hn Ha.
  destruct (get_spec c path options s ld Hwf Hc Hld Hn Ha)
    as (r & s' & Hrun & Hr & _ & _ & Hframe & Hwf').
  assert (obj_at s' ld = obj_at s ld) as Hsame
    by (unfold obj_at; by rewrite Hframe).
  assert (ld ∈ dom (heap s')) as Hld'.
  { apply elem_of_dom. rewrite Hframe by done. by apply elem_of_dom. }
  exists r, s'. split; [done|]. rewrite Hr; cbn [req_headers].
  split; [done|]. split; [|split; [|split; [done|]]].
  - intros k v Hk. by apply lookup_union_Some_l.
  - intros k Hk. by apply lookup_union_r.
  - intros path2 options2 Hn2 Ha2 Hno.
    destruct (get_spec c path2 options2 s' ld Hwf' Hc Hld' Hn2 Ha2)
      as (r2 & s2 & Hrun2 & Hr2 & _).
    exists r2, s2. split; [done|]. rewrite Hr2; cbn [req_headers].
    unfold per_call. rewrite Hno, Hsame. apply (left_id_L ∅ (∪)).
Qed.

(** C7: the default headers get [user-agent: node.js/{process.version}]
    and [Accept-Encoding: gzip] exactly when the probe of the runtime
    ([process.release.name === 'node']) succeeds.  When it fails
    neither key is written: both are as in the mapping the headers
    start from, so absent unless the caller put them there. *)
Theorem node_headers_iff_node s l :
  wf s → accepted s l = true →
  ∃ api s' ld,
    createClient version getUserAgentHeader (VObj l) s = (Ret api, s') ∧
    defaultHeaders (http api) = VObj ld ∧
    (is_node s = true →
     obj_at s' ld !! "user-agent" =
       Some (VStr ("node.js/" +:+ to_str (process_version s))) ∧
     obj_at s' ld !! "Accept-Encoding" = Some (VStr "gzip")) ∧
    (is_node s = false →
     obj_at s' ld !! "user-agent" = obj_at s ld !! "user-agent" ∧
     obj_at s' ld !! "Accept-Encoding" = obj_at s ld !! "Accept-Encoding") ∧
    (truthy (prop s l "defaultHeaders") = false →
     (is_node s = true ↔ is_Some (obj_at s' ld !! "user-agent")) ∧
     (is_node s = true ↔ is_Some (obj_at s' ld !! "Accept-Encoding"))).
Proof.
  intros Hwf Hacc.
  destruct (createClient_spec version getUserAgentHeader s l Hwf Hacc)
    as (api & s' & lh & ld & Hrun & Hcc).
  destruct (cc_contents _ _ _ _ _ _ _ Hcc) as (before & Hobj & Hbefore).
  exists api, s', ld. split; [done|]. split; [by apply (cc_headers _ _ _ _ _ _ _ Hcc)|].
  assert (is_node s = true →
          obj_at s' ld !! "user-agent" =
            Some (VStr ("node.js/" +:+ to_str (process_version s))) ∧
          obj_at s' ld !! "Accept-Encoding" = Some (VStr "gzip")) as Hyes.
  { intros Hnode. rewrite Hobj. unfold node_headers. rewrite Hnode.
    by rewrite lookup_insert_eq, lookup_insert_ne, lookup_insert_eq. }
  assert (truthy (prop s l "defaultHeaders") = false →
          is_node s = false →
          obj_at s' ld !! "user-agent" = None ∧
          obj_at s' ld !! "Accept-Encoding" = None) as Hno.
  { intros Tdh Hnode. rewrite Hobj, (Hbefore Tdh). unfold node_headers.
    rewrite Hnode. by rewrite !lookup_insert_ne, lookup_empty. }
  split; [done|]. split.
  - intros Hnode. destruct (decide (ld ∈ dom (heap s))) as [Hin|Hout].
    + pose proof (cc_frame _ _ _ _ _ _ _ Hcc) as Hev.
      split; apply (ev_keys _ _ _ _ Hev); try done;
        unfold written_keys, written_headers; rewrite Hnode; notin_keys.
    + assert (truthy (prop s l "defaultHeaders") = false) as Tdh.
      { apply accepted_inv in Hacc as (_ & _ & _ & Hok & _).
        apply dh_ok_falsy; [done|]. intros y Hy.
        pose proof (cc_ld _ _ _ _ _ _ _ Hcc) as Hld. rewrite Hy in Hld.
        subst y. apply Hout.
        pose proof (wf_prop s l "defaultHeaders" Hwf) as Ha. by rewrite Hy in Ha. }
      rewrite (obj_at_fresh s ld Hout), !lookup_empty. by apply Hno.
  - intros Tdh. destruct (is_node s) eqn:Hnode.
    + destruct Hyes as [-> ->]; [done|]. by split.
    + destruct (Hno Tdh eq_refl) as [-> ->].
      split; split; try done; by intros [??].
Qed.

(** C6, as amended: [createClient] builds no request and leaves
    [process] alone, but it writes to the caller's objects: it sets
    [params.defaultHostname] and [params.headers], the latter to the
    caller's own headers object (a new one if there was none) in which it
    has set [Content-Type] and [X-Contentful-User-Agent].  Every object
    other than params, its [headers] and its [defaultHeaders] is
    unchanged, and so is, in every object, every entry under a key that
    [createClient] does not write. *)
Theorem createClient_frame s l :
  wf s → accepted s l = true →
  ∃ api s' lh,
    createClient version getUserAgentHeader (VObj l) s = (Ret api, s') ∧
    requests s' = requests s ∧
    process s' = process s ∧
    prop s' l "defaultHostname" = VStr "cdn.contentful.com" ∧
    prop s' l "headers" = VObj lh ∧
    (∀ x, prop s l "headers" = VObj x → lh = x) ∧
    ((∀ x, prop s l "headers" ≠ VObj x) → lh ∉ dom (heap s)) ∧
    obj_at s' lh !! "Content-Type" = Some (VStr content_type) ∧
    obj_at s' lh !! "X-Contentful-User-Agent" =
      Some (VStr (getUserAgentHeader ("contentful.js/" +:+ version)
                    (prop s l "application") (prop s l "integration"))) ∧
    (∀ l' k, l' ∈ dom (heap s) → k ∉ written_keys s →
             obj_at s' l' !! k = obj_at s l' !! k) ∧
    (∀ l', l' ∈ dom (heap s) → l' ≠ l →
           prop s l "headers" ≠ VObj l' →
           prop s l "defaultHeaders" ≠ VObj l' →
           heap s' !! l' = heap s !! l').
Proof.
  intros Hwf Hacc.
  destruct (createClient_spec version getUserAgentHeader s l Hwf Hacc)
    as (api & s' & lh & ld & Hrun & Hcc).
  pose proof (cc_frame _ _ _ _ _ _ _ Hcc) as Hev.
  pose proof (cc_lh _ _ _ _ _ _ _ Hcc) as Hlh.
  pose proof (cc_ld _ _ _ _ _ _ _ Hcc) as Hld.
  exists api, s', lh. split; [done|].
  split; [apply (ev_requests _ _ _ _ Hev)|].
  split; [apply (ev_process _ _ _ _ Hev)|].
  split; [apply (cc_hostname _ _ _ _ _ _ _ Hcc)|].
  split; [apply (cc_params_headers _ _ _ _ _ _ _ Hcc)|].
  split; [intros x Hx; by rewrite Hx in Hlh|].
  split.
  { intros Hno. destruct (prop s l "headers") as [| |b|n|h|x]; try done.
    by destruct (Hno x). }
  split; [apply (cc_content_type _ _ _ _ _ _ _ Hcc)|].
  split; [apply (cc_user_agent _ _ _ _ _ _ _ Hcc)|].
  split; [apply (ev_keys _ _ _ _ Hev)|].
  intros l' Hl' Hne Hh Hd. apply (ev_locs _ _ _ _ Hev); [done|].
  intros Hin. apply elem_of_cons in Hin as [->|Hin]; [done|].
  apply elem_of_cons in Hin as [->|Hin].
  { destruct (prop s l "headers"); try done. by subst. }
  apply elem_of_cons in Hin as [->|Hin]; [|by apply elem_of_nil in Hin].
  destruct (prop s l "defaultHeaders"); try done. by subst.
Qed.

(** C1: where the code stands.  For accepted params without a
    [defaultHeaders] entry the default headers of the client hold
    [Authorization: Bearer {accessToken}] but neither [Content-Type] nor
    [X-Contentful-User-Agent]: those two were written to
    [params.headers], which [createDefaultHeaders] does not read.  A
    request sent by [get] carries [Content-Type] only if the per-call
    headers supply it. *)
Theorem default_headers_lack_content_type s l :
  wf s → accepted s l = true →
  truthy (prop s l "defaultHeaders") = false →
  ∃ api s' ld,
    createClient version getUserAgentHeader (VObj l) s = (Ret api, s') ∧
    defaultHeaders (http api) = VObj ld ∧
    obj_at s' ld !! "Authorization" =
      Some (VStr ("Bearer " +:+ to_str (prop s l "accessToken"))) ∧
    obj_at s' ld !! "Content-Type" = None ∧
    obj_at s' ld !! "X-Contentful-User-Agent" = None ∧
    (∀ path options,
       nullish options = false → allocated s' options →
       ∃ r s2,
         get (http api) path options s' = (Ret r, s2) ∧
         req_headers r !! "Content-Type" =
           per_call s' options !! "Content-Type").
Proof.
  intros Hwf Hacc Tdh.
  destruct (createClient_spec version getUserAgentHeader s l Hwf Hacc)
    as (api & s' & lh & ld & Hrun & Hcc).
  destruct (cc_contents _ _ _ _ _ _ _ Hcc) as (before & Hobj & Hbefore).
  rewrite (Hbefore Tdh) in Hobj.
  assert (obj_at s' ld !! "Content-Type" = None) as Hct.
  { rewrite Hobj. unfold node_headers.
    destruct (is_node s); by rewrite !lookup_insert_ne, lookup_empty. }
  exists api, s', ld. split; [done|].
  split; [apply (cc_headers _ _ _ _ _ _ _ Hcc)|]. split.
  { rewrite Hobj. unfold node_headers.
    destruct (is_node s); by rewrite ?lookup_insert_ne, lookup_insert_eq by done. }
  split; [done|]. split.
  { rewrite Hobj. unfold node_headers.
    destruct (is_node s); by rewrite !lookup_insert_ne, lookup_empty. }
  intros path options Hn Ha.
  destruct (get_spec (http api) path options s' ld
              (cc_wf _ _ _ _ _ _ _ Hcc) (cc_headers _ _ _ _ _ _ _ Hcc)
              (cc_ld_dom _ _ _ _ _ _ _ Hcc) Hn Ha)
    as (r & s2 & Hget & Hr & _).
  exists r, s2. split; [done|]. rewrite Hr; cbn [req_headers].
  destruct (per_call s' options !! "Content-Type") as [v|] eqn:E.
  - by apply lookup_union_Some_l.
  - by rewrite lookup_union_r.
Qed.

(** C9, as amended: for accepted params without a [defaultHeaders] entry
    the client's default headers are a new object, and nothing in the
    store after construction (no property of any object, params
    included, nor [process]) refers to it. *)
Theorem client_headers_unreferenced s l :
  wf s → accepted s l = true →
  truthy (prop s l "defaultHeaders") = false →
  ∃ api s' ld,
    createClient version getUserAgentHeader (VObj l) s = (Ret api, s') ∧
    defaultHeaders (http api) = VObj ld ∧
    (ld ∉ dom (heap s)) ∧
    (∀ l' k, obj_at s' l' !! k ≠ Some (VObj ld)) ∧
    process s' ≠ Some (VObj ld).
Proof.
  intros Hwf Hacc Tdh.
  destruct (createClient_spec version getUserAgentHeader s l Hwf Hacc)
    as (api & s' & lh & ld & Hrun & Hcc).
  exists api, s', ld. split; [done|].
  split; [apply (cc_headers _ _ _ _ _ _ _ Hcc)|]. split.
  - pose proof (cc_ld _ _ _ _ _ _ _ Hcc) as Hld.
    destruct (prop s l "defaultHeaders"); done.
  - apply (cc_fresh _ _ _ _ _ _ _ Hcc Tdh).
Qed.

(** C8, as amended: two calls of [createClient], on the same params
    object or on two objects with the same parameters, none with a
    [defaultHeaders] entry, give clients with the same base URL and
    default headers of the same contents held in two distinct objects;
    a [get] through the first client leaves the headers of both as they
    were. *)
Theorem createClient_twice s l l2 :
  wf s → accepted s l = true → accepted s l2 = true →
  same_params s l l2 = true →
  truthy (prop s l "defaultHeaders") = false →
  truthy (prop s l2 "defaultHeaders") = false →
  ∃ api1 s1 api2 s2 ld1 ld2,
    createClient version getUserAgentHeader (VObj l) s = (Ret api1, s1) ∧
    createClient version getUserAgentHeader (VObj l2) s1 = (Ret api2, s2) ∧
    baseURL (http api1) = baseURL (http api2) ∧
    defaultHeaders (http api1) = VObj ld1 ∧
    defaultHeaders (http api2) = VObj ld2 ∧
    obj_at s2 ld1 = obj_at s2 ld2 ∧
    ld1 ≠ ld2 ∧
    (∀ path options,
       nullish options = false → allocated s2 options →
       ∃ r s3,
         get (http api1) path options s2 = (Ret r, s3) ∧
         obj_at s3 ld1 = obj_at s2 ld1 ∧
         obj_at s3 ld2 = obj_at s2 ld2).
Proof.
  intros Hwf Hacc Hacc2 Hsame Tdh Tdh2.
  assert (prop s l "accessToken" = prop s l2 "accessToken" ∧
          prop s l "space" = prop s l2 "space" ∧
          prop s l "insecure" = prop s l2 "insecure" ∧
          prop s l "host" = prop s l2 "host") as (Eat & Esp & Eins & Ehost).
  { unfold same_params in Hsame. cbn [forallb] in Hsame.
    rewrite !andb_true_iff, !bool_decide_eq_true in Hsame. tauto. }
  destruct (createClient_spec version getUserAgentHeader s l Hwf Hacc)
    as (api1 & s1 & lh1 & ld1 & Hrun1 & Hcc1).
  pose proof (cc_frame _ _ _ _ _ _ _ Hcc1) as Hev1.
  pose proof (cc_wf _ _ _ _ _ _ _ Hcc1) as Hwf1.
  assert (l2 ∈ dom (heap s)) as Hl2.
  { apply accepted_inv in Hacc2 as (Tat & _). by eapply prop_allocated. }
  assert (l ∈ dom (heap s)) as Hl.
  { apply accepted_inv in Hacc as (Tat & _). by eapply prop_allocated. }
  assert (∀ k, k ∉ written_keys s → prop s1 l2 k = prop s l2 k) as Hkeep
    by (intros k Hk; by apply (evolves_prop _ _ _ _ _ _ Hev1)).
  assert (prop s1 l2 "accessToken" = prop s l2 "accessToken") as Kat
    by (apply Hkeep; notin_keys).
  assert (prop s1 l2 "space" = prop s l2 "space") as Ksp
    by (apply Hkeep; notin_keys).
  assert (prop s1 l2 "insecure" = prop s l2 "insecure") as Kins
    by (apply Hkeep; notin_keys).
  assert (prop s1 l2 "host" = prop s l2 "host") as Khost
    by (apply Hkeep; notin_keys).
  assert (prop s1 l2 "defaultHeaders" = prop s l2 "defaultHeaders") as Kdh
    by (apply Hkeep; notin_keys).
  assert (accepted s1 l2 = true) as Hacc1.
  { unfold accepted in *.
    by rewrite Kat, Ksp, Khost, Kdh, (ev_process _ _ _ _ Hev1). }
  destruct (createClient_spec version getUserAgentHeader s1 l2 Hwf1 Hacc1)
    as (api2 & s2 & lh2 & ld2 & Hrun2 & Hcc2).
  pose proof (cc_frame _ _ _ _ _ _ _ Hcc2) as Hev2.
  pose proof (cc_wf _ _ _ _ _ _ _ Hcc2) as Hwf2.
  pose proof (cc_ld_dom _ _ _ _ _ _ _ Hcc1) as Hld1.
  pose proof (cc_ld_dom _ _ _ _ _ _ _ Hcc2) as Hld2.
  assert (ld1 ∉ dom (heap s)) as Hnew1.
  { pose proof (cc_ld _ _ _ _ _ _ _ Hcc1) as H.
    destruct (prop s l "defaultHeaders"); done. }
  assert (ld2 ∉ dom (heap s1)) as Hnew2.
  { pose proof (cc_ld _ _ _ _ _ _ _ Hcc2) as H. rewrite Kdh in H.
    destruct (prop s l2 "defaultHeaders"); done. }
  assert (ld1 ≠ ld2) as Hne by (intros ->; done).
  assert (ld1 ≠ lh2) as Hnh.
  { pose proof (cc_lh _ _ _ _ _ _ _ Hcc2) as H.
    destruct (cc_fresh _ _ _ _ _ _ _ Hcc1 Tdh) as [Hunref _].
    destruct (prop s1 l2 "headers") as [| |b|n|h|x] eqn:E;
      try (intros ->; done).
    subst x. intros ->. by apply (Hunref l2 "headers"), prop_VObj_lookup. }
  assert (obj_at s2 ld1 = obj_at s1 ld1) as Hkeep1.
  { unfold obj_at. rewrite (ev_locs _ _ _ _ Hev2); [done|done|].
    intros Hin. apply elem_of_cons in Hin as [->|Hin]; [done|].
    apply elem_of_cons in Hin as [->|Hin]; [done|].
    apply elem_of_cons in Hin as [->|Hin]; [done|]. by apply elem_of_nil in Hin. }
  assert (is_node s1 = is_node s) as Hn1
    by (apply (evolves_is_node _ _ _ _ Hwf Hev1); notin_keys).
  assert (process_version s1 = process_version s) as Hv1
    by (apply (evolves_process_version _ _ _ _ Hwf Hev1); notin_keys).
  assert (ld1 ∈ dom (heap s2)) as Hld12
    by (by apply (ev_dom _ _ _ _ Hev2)).
  exists api1, s1, api2, s2, ld1, ld2.
  split; [done|]. split; [done|]. split.
  { rewrite (cc_url _ _ _ _ _ _ _ Hcc1), (cc_url _ _ _ _ _ _ _ Hcc2).
    by rewrite Kins, Khost, Ksp, Eins, Ehost, Esp. }
  split; [apply (cc_headers _ _ _ _ _ _ _ Hcc1)|].
  split; [apply (cc_headers _ _ _ _ _ _ _ Hcc2)|]. split.
  { destruct (cc_contents _ _ _ _ _ _ _ Hcc1) as (b1 & Ho1 & Hb1).
    destruct (cc_contents _ _ _ _ _ _ _ Hcc2) as (b2 & Ho2 & Hb2).
    rewrite Hkeep1, Ho1, Ho2, (Hb1 Tdh), Hb2 by (by rewrite Kdh).
    unfold node_headers. by rewrite Hn1, Hv1, Kat, Eat. }
  split; [done|].
  intros path options Hn Ha.
  destruct (get_spec (http api1) path options s2 ld1 Hwf2
              (cc_headers _ _ _ _ _ _ _ Hcc1) Hld12 Hn Ha)
    as (r & s3 & Hget & _ & _ & _ & Hframe & _).
  exists r, s3. split; [done|]. unfold obj_at. by rewrite !Hframe.
Qed.

End Claims.

(** The two base URLs the specification gives as examples. *)
Example baseURL_default_host :
  ∃ api s',
    createClient example_version example_user_agent (VObj 1)
      (node_runtime params_secure) = (Ret api, s') ∧
    baseURL (http api) = "https://cdn.contentful.com:443/spaces/abc/".
Proof. exhibit no_client. split; computed. Qed.

Example baseURL_insecure_host_port :
  ∃ api s',
    createClient example_version example_user_agent (VObj 1)
      (node_runtime params_insecure_host) = (Ret api, s') ∧
    baseURL (http api) = "http://example.com:9000/spaces/abc/".
Proof. exhibit no_client. split; computed. Qed.

(** In a browser whose [process] is a bundler's shim the default headers
    are [Authorization] alone. *)
Example browser_default_headers :
  ∃ api s',
    createClient example_version example_user_agent (VObj 1)
      (browser_runtime params_tok) = (Ret api, s') ∧
    defaultHeaders (http api) = VObj 5 ∧
    obj_at s' 5 = {[ "Authorization" := VStr "Bearer tok" ]}.
Proof. exhibit no_client. repeat split; computed. Qed.

(** Where [process] is not declared at all, the probe itself fails. *)
Example undeclared_process_throws :
  (createClient example_version example_user_agent (VObj 1)
     {| heap := {[ 1%positive := params_tok ]}; process := None; requests := [] |}).1
  = Throw (ReferenceError "process").
Proof. computed. Qed.

(** C2, the claim as stated fails: with [host: ':9000'] the host name is
    not the (empty) text before the colon but the default host name. *)
Lemma baseURL_port_only_host :
  ∃ api s',
    createClient example_version example_user_agent (VObj 1)
      (node_runtime params_port_only) = (Ret api, s') ∧
    baseURL (http api) = "https://cdn.contentful.com:9000/spaces/abc/" ∧
    spec_baseURL (prop (node_runtime params_port_only) 1 "insecure")
                 (prop (node_runtime params_port_only) 1 "host")
                 (prop (node_runtime params_port_only) 1 "space")
      = "https://:9000/spaces/abc/" ∧
    baseURL (http api) ≠
      spec_baseURL (prop (node_runtime params_port_only) 1 "insecure")
                   (prop (node_runtime params_port_only) 1 "host")
                   (prop (node_runtime params_port_only) 1 "space").
Proof.
  exhibit no_client. split; [computed|]. split; [computed|].
  split; [computed|]. by_computation.
Qed.

(** C6, the claim as stated fails: after [createClient] the caller's
    params object has a [defaultHostname], and the caller's headers
    object a [Content-Type]. *)
Lemma createClient_writes_params :
  ∃ api s',
    createClient example_version example_user_agent (VObj 1)
      store_with_headers = (Ret api, s') ∧
    obj_at s' 1 ≠ obj_at store_with_headers 1 ∧
    obj_at store_with_headers 1 !! "defaultHostname" = None ∧
    obj_at s' 1 !! "defaultHostname" = Some (VStr "cdn.contentful.com") ∧
    obj_at s' 4 ≠ obj_at store_with_headers 4 ∧
    obj_at store_with_headers 4 !! "Content-Type" = None ∧
    obj_at s' 4 !! "Content-Type" = Some (VStr content_type).
Proof.
  exhibit no_client. split; [computed|]. split; [by_computation|].
  split; [computed|]. split; [computed|]. split; [by_computation|].
  split; computed.
Qed.

(** C9, the claim as stated fails: when the caller supplies
    [defaultHeaders], the client's default headers are that very object,
    the caller's params still refer to it, and what the caller writes to
    it afterwards is sent by [get]. *)
Lemma caller_keeps_default_headers :
  ∃ api s',
    createClient example_version example_user_agent (VObj 1)
      store_with_defaults = (Ret api, s') ∧
    accepted store_with_defaults 1 = true ∧
    defaultHeaders (http api) = VObj 4 ∧
    obj_at s' 1 !! "defaultHeaders" = Some (VObj 4) ∧
    ∃ r s2,
      get (http api) (VStr "entries") (VBool true)
        (store s' 4 "X-Injected" (VStr "1")) = (Ret r, s2) ∧
      req_headers r !! "X-Injected" = Some (VStr "1").
Proof.
  exhibit no_client. split; [computed|]. split; [computed|].
  split; [computed|]. split; [computed|].
  exhibit no_request. split; computed.
Qed.

(** C8, the claim as stated fails: two clients made from params that
    carry a [defaultHeaders] object have that one object as their default
    headers, and a write to it shows in the requests of both. *)
Lemma clients_share_default_headers :
  ∃ api1 s1,
    createClient example_version example_user_agent (VObj 1)
      store_with_defaults = (Ret api1, s1) ∧
    accepted store_with_defaults 1 = true ∧
    ∃ api2 s2,
      createClient example_version example_user_agent (VObj 1) s1 = (Ret api2, s2) ∧
      defaultHeaders (http api1) = defaultHeaders (http api2) ∧
      ∃ r1 s3,
        get (http api1) (VStr "entries") (VBool true)
          (store s2 4 "X-Shared" (VStr "1")) = (Ret r1, s3) ∧
        req_headers r1 !! "X-Shared" = Some (VStr "1") ∧
        ∃ r2 s4,
          get (http api2) (VStr "entries") (VBool true) s3 = (Ret r2, s4) ∧
          req_headers r2 !! "X-Shared" = Some (VStr "1").
Proof.
  exhibit no_client. split; [computed|]. split; [computed|].
  exhibit no_client. split; [computed|]. split; [computed|].
  exhibit no_request. split; [computed|]. split; [computed|].
  exhibit no_request. split; computed.
Qed.

(** * The theorems at concrete inputs *)

(** C1 at [{accessToken: 'tok', space: 'abc'}] under Node. *)
Lemma default_headers_lack_content_type_witness :
  ∃ api s' ld,
    createClient example_version example_user_agent (VObj 1)
      (node_runtime params_tok) = (Ret api, s') ∧
    defaultHeaders (http api) = VObj ld ∧
    obj_at s' ld !! "Authorization" = Some (VStr "Bearer tok") ∧
    obj_at s' ld !! "Content-Type" = None ∧
    obj_at s' ld !! "X-Contentful-User-Agent" = None.
Proof.
  destruct (default_headers_lack_content_type example_version
              example_user_agent (node_runtime params_tok) 1)
    as (api & s' & ld & Hrun & Hh & Hauth & Hct & Hua & _);
    [by_computation|computed|computed|].
  exists api, s', ld. repeat split; assumption.
Defined.

(** C2 at [{space: 'abc', accessToken: 'tok', insecure: true, host:
    'example.com:9000'}]. *)
Lemma createClient_baseURL_witness :
  ∃ api s',
    createClient example_version example_user_agent (VObj 1)
      (node_runtime params_insecure_host) = (Ret api, s') ∧
    baseURL (http api) = "http://example.com:9000/spaces/abc/".
Proof.
  destruct (createClient_baseURL example_version example_user_agent
              (node_runtime params_insecure_host) 1)
    as (api & s' & Hrun & Hurl); [by_computation|computed|].
  exists api, s'. split; [assumption|]. rewrite Hurl. computed.
Defined.

(** C3 at [{space: 'abc'}] and at [{accessToken: 'tok'}]. *)
Lemma createClient_missing_parameter_witness :
  createClient example_version example_user_agent (VObj 1)
    (node_runtime params_no_token)
  = (Throw (TypeError "Expected parameter accessToken"),
     node_runtime params_no_token) ∧
  createClient example_version example_user_agent (VObj 1)
    (node_runtime params_no_space)
  = (Throw (TypeError "Expected parameter space"), node_runtime params_no_space).
Proof.
  split.
  - apply (createClient_missing_parameter example_version example_user_agent
             (node_runtime params_no_token) (VObj 1)); reflexivity.
  - apply (createClient_missing_parameter example_version example_user_agent
             (node_runtime params_no_space) (VObj 1)); reflexivity.
Defined.

(** C4 at [{accessToken: 'tok', space: 'abc', resolveLinks: false}]. *)
Lemma createClient_resolveLinks_witness :
  ∃ api s',
    createClient example_version example_user_agent (VObj 1)
      (node_runtime params_no_links) = (Ret api, s') ∧
    shouldLinksResolve api = false.
Proof.
  destruct (createClient_resolveLinks example_version example_user_agent
              (node_runtime params_no_links) 1)
    as (api & s' & Hrun & Hpresent & _); [by_computation|computed|].
  exists api, s'. split; [assumption|].
  apply (Hpresent (VBool false)). computed.
Defined.

(** C5: a call with [{headers: {'X-Foo': 'bar'}}], then one with [{}]. *)
Lemma get_merges_over_copy_witness :
  ∃ r s',
    get example_client (VStr "entries") (VObj 5) store_for_get = (Ret r, s') ∧
    req_headers r =
      {[ "X-Foo" := VStr "bar"; "Authorization" := VStr "Bearer tok" ]} ∧
    obj_at s' 4 = {[ "Authorization" := VStr "Bearer tok" ]} ∧
    ∃ r2 s2,
      get example_client (VStr "assets") (VObj 7) s' = (Ret r2, s2) ∧
      req_headers r2 = {[ "Authorization" := VStr "Bearer tok" ]}.
Proof.
  destruct (get_merges_over_copy example_client (VStr "entries") (VObj 5)
              store_for_get 4)
    as (r & s' & Hrun & Hh & _ & _ & Hsame & Hnext);
    [by_computation|reflexivity|by_computation|reflexivity|by_computation|].
  assert (s' = (get example_client (VStr "entries") (VObj 5) store_for_get).2)
    as Hs' by (by rewrite Hrun).
  exists r, s'. split; [assumption|]. split; [rewrite Hh; computed|].
  split; [rewrite Hsame; computed|].
  destruct (Hnext (VStr "assets") (VObj 7)) as (r2 & s2 & Hrun2 & Hh2);
    [reflexivity|rewrite Hs'; by_computation|rewrite Hs'; computed|].
  exists r2, s2. split; [assumption|]. rewrite Hh2. computed.
Defined.

(** C6 at [{accessToken, space, headers: {'X-Foo': 'bar'}}]: nothing is
    sent, [process] and the objects behind it are untouched, the caller's
    own header is still there. *)
Lemma createClient_frame_witness :
  ∃ api s',
    createClient example_version example_user_agent (VObj 1)
      store_with_headers = (Ret api, s') ∧
    requests s' = [] ∧
    prop s' 1 "defaultHostname" = VStr "cdn.contentful.com" ∧
    prop s' 1 "headers" = VObj 4 ∧
    obj_at s' 4 !! "X-Foo" = Some (VStr "bar") ∧
    heap s' !! 2%positive = heap store_with_headers !! 2%positive.
Proof.
  destruct (createClient_frame example_version example_user_agent
              store_with_headers 1)
    as (api & s' & lh & Hrun & Hreq & _ & Hhost & Hhdr & Hlh & _ & _ & _ & Hkeys & Hlocs);
    [by_computation|computed|].
  assert (lh = 4%positive) as -> by (apply Hlh; computed).
  exists api, s'. split; [assumption|]. split; [assumption|].
  split; [assumption|]. split; [assumption|]. split.
  - etrans; [apply (Hkeys 4%positive "X-Foo"); by_computation|computed].
  - apply Hlocs; [by_computation|discriminate|vm_compute; discriminate|
                  vm_compute; discriminate].
Defined.

(** C7 under Node with [process.version] ['v6.9.1']. *)
Lemma node_headers_iff_node_witness :
  ∃ api s' ld,
    createClient example_version example_user_agent (VObj 1)
      (node_runtime params_tok) = (Ret api, s') ∧
    defaultHeaders (http api) = VObj ld ∧
    obj_at s' ld !! "user-agent" = Some (VStr "node.js/v6.9.1") ∧
    obj_at s' ld !! "Accept-Encoding" = Some (VStr "gzip").
Proof.
  destruct (node_headers_iff_node example_version example_user_agent
              (node_runtime params_tok) 1)
    as (api & s' & ld & Hrun & Hh & Hnode & _); [by_computation|computed|].
  destruct Hnode as [Hua Hae]; [computed|].
  exists api, s', ld. repeat split; assumption.
Defined.

(** C8 on two params literals with the same parameters. *)
Lemma createClient_twice_witness :
  ∃ api1 s1 api2 s2 ld1 ld2,
    createClient example_version example_user_agent (VObj 1)
      store_two_literals = (Ret api1, s1) ∧
    createClient example_version example_user_agent (VObj 4) s1 = (Ret api2, s2) ∧
    baseURL (http api1) = baseURL (http api2) ∧
    defaultHeaders (http api1) = VObj ld1 ∧
    defaultHeaders (http api2) = VObj ld2 ∧
    obj_at s2 ld1 = obj_at s2 ld2 ∧
    ld1 ≠ ld2.
Proof.
  destruct (createClient_twice example_version example_user_agent
              store_two_literals 1 4)
    as (api1 & s1 & api2 & s2 & ld1 & ld2 & H1 & H2 & Hurl & Hd1 & Hd2 & Hc & Hne & _);
    [by_computation|computed|computed|computed|computed|computed|].
  exists api1, s1, api2, s2, ld1, ld2. repeat split; assumption.
Defined.

(** C9 at [{accessToken: 'tok', space: 'abc'}]. *)
Lemma client_headers_unreferenced_witness :
  ∃ api s' ld,
    createClient example_version example_user_agent (VObj 1)
      (node_runtime params_tok) = (Ret api, s') ∧
    defaultHeaders (http api) = VObj ld ∧
    (ld ∉ dom (heap (node_runtime params_tok))) ∧
    obj_at s' 1 !! "defaultHeaders" ≠ Some (VObj ld).
Proof.
  destruct (client_headers_unreferenced example_version example_user_agent
              (node_runtime params_tok) 1)
    as (api & s' & ld & Hrun & Hh & Hnew & Hunref & _);
    [by_computation|computed|computed|].
  exists api, s', ld. repeat split; try assumption. apply Hunref.
Defined.

(** * Further properties of the source *)

(** ** Relations every step keeps *)

Section Preserved.

Context {R : state → state → Prop}.
Hypothesis R_refl : ∀ s, R s s.
Hypothesis R_trans : ∀ s1 s2 s3, R s1 s2 → R s2 s3 → R s1 s3.
Hypothesis R_store : ∀ s l k x, R s (store s l k x).
Hypothesis R_alloc : ∀ s l o, l ∉ dom (heap s) → R s (put s l o).
Hypothesis R_merge : ∀ s l o, R s (put s l (o ∪ obj_at s l)).

Lemma preserves_ret {A} (a : A) : preserves R (ret a).
Proof. intros s. apply R_refl. Qed.

Lemma preserves_throw {A} e : preserves R (@throw A e).
Proof. intros s. apply R_refl. Qed.

Lemma preserves_bind {A B} (m : M A) (k : A → M B) :
  preserves R m → (∀ a, preserves R (k a)) → preserves R (bind m k).
Proof.
  intros Hm Hk s. unfold bind. specialize (Hm s).
  destruct (m s) as [[a|e] s1]; simpl in *; [|done].
  eapply R_trans; [exact Hm|apply Hk].
Qed.

Lemma preserves_get_prop v k : preserves R (get_prop v k).
Proof. intros s. destruct v; apply R_refl. Qed.

Lemma preserves_set_prop v k x : preserves R (set_prop v k x).
Proof. intros s. destruct v; simpl; auto. Qed.

Lemma preserves_has_prop k v : preserves R (has_prop k v).
Proof. intros s. destruct v; apply R_refl. Qed.

Lemma preserves_alloc o : preserves R (alloc o).
Proof. intros s. apply R_alloc, is_fresh. Qed.

Lemma preserves_read_process : preserves R read_process.
Proof. intros s. unfold read_process. destruct (process s); apply R_refl. Qed.

Lemma preserves_own_props v : preserves R (own_props v).
Proof. intros s. destruct v; apply R_refl. Qed.

Lemma preserves_clone v : preserves R (clone v).
Proof.
  destruct v; try apply preserves_ret.
  apply preserves_bind; [apply preserves_own_props|intros; apply preserves_alloc].
Qed.

Lemma preserves_assign target source : preserves R (assign target source).
Proof.
  intros s.
  assert (∀ lt, (assign (VObj lt) source s).2 =
                put s lt ((if truthy source then props_of s source else ∅)
                          ∪ obj_at s lt)) as Hobj
    by (intros lt; by rewrite assign_object_target).
  assert (∀ o, (∀ x, target ≠ VObj x) → props_of s target = o →
               (assign target source s).2 =
               put s (fresh (dom (heap s)))
                 ((if truthy source
                   then props_of (put s (fresh (dom (heap s))) o) source
                   else ∅) ∪ o)) as Hprim.
  { intros o Hno <-.
    destruct target as [| |b|n|h|x]; try (by destruct (Hno x));
      unfold assign, bind; simpl;
      destruct source as [| |[]|m|g|y]; simpl; try destruct (negb _); simpl;
      by rewrite ?put_put, ?obj_at_put_eq. }
  destruct target as [| |b|n|h|x];
    try (rewrite Hobj; apply R_merge);
    (erewrite Hprim; [apply R_alloc, is_fresh|done|done]).
Qed.

Lemma preserves_createURL params : preserves R (createURL params).
Proof.
  unfold createURL.
  repeat (apply preserves_bind; [apply preserves_get_prop|intros ?]).
  apply preserves_bind; [|intros; apply preserves_ret].
  destruct (truthy _); [|apply preserves_ret].
  destruct a1; first [apply preserves_ret|apply preserves_throw].
Qed.

Lemma preserves_node_probe : preserves R node_probe.
Proof.
  unfold node_probe. apply preserves_bind; [apply preserves_read_process|intros p].
  destruct (truthy p); [|apply preserves_ret].
  apply preserves_bind; [apply preserves_get_prop|intros r].
  destruct (truthy r); [|apply preserves_ret].
  apply preserves_bind; [apply preserves_get_prop|intros; apply preserves_ret].
Qed.

Lemma preserves_createDefaultHeaders params :
  preserves R (createDefaultHeaders params).
Proof.
  unfold createDefaultHeaders.
  repeat (apply preserves_bind; [apply preserves_get_prop|intros ?]).
  apply preserves_bind.
  { destruct (truthy _); [apply preserves_ret|apply preserves_alloc]. }
  intros dh. apply preserves_bind; [apply preserves_set_prop|intros _].
  apply preserves_bind; [apply preserves_node_probe|intros node].
  apply preserves_bind; [|intros; apply preserves_ret].
  destruct node; [|apply preserves_ret].
  apply preserves_bind; [apply preserves_read_process|intros p].
  apply preserves_bind; [apply preserves_get_prop|intros v].
  apply preserves_bind; [apply preserves_set_prop|intros _].
  apply preserves_set_prop.
Qed.

Lemma preserves_createNonAxiosHTTPClient params :
  preserves R (createNonAxiosHTTPClient params).
Proof.
  unfold createNonAxiosHTTPClient.
  apply preserves_bind; [apply preserves_createURL|intros url].
  apply preserves_bind; [apply preserves_createDefaultHeaders|intros dh].
  apply preserves_ret.
Qed.

Lemma preserves_createClient version getUserAgentHeader params :
  preserves R (createClient version getUserAgentHeader params).
Proof.
  unfold createClient.
  apply preserves_bind; [apply preserves_get_prop|intros accessToken].
  destruct (negb _); [apply preserves_throw|].
  apply preserves_bind; [apply preserves_get_prop|intros space].
  destruct (negb _); [apply preserves_throw|].
  apply preserves_bind; [apply preserves_has_prop|intros present].
  apply preserves_bind.
  { destruct present; [apply preserves_get_prop|apply preserves_ret]. }
  intros rl.
  repeat (apply preserves_bind; [apply preserves_get_prop|intros ?]).
  apply preserves_bind; [apply preserves_set_prop|intros _].
  apply preserves_bind; [apply preserves_get_prop|intros headers].
  apply preserves_bind; [apply preserves_alloc|intros literal].
  apply preserves_bind; [apply preserves_assign|intros merged].
  apply preserves_bind; [apply preserves_set_prop|intros _].
  apply preserves_bind; [apply preserves_createNonAxiosHTTPClient|intros client].
  apply preserves_ret.
Qed.

Hypothesis R_log : ∀ s r, R s (add_request r s).

Lemma preserves_get c path options : preserves R (get c path options).
Proof.
  unfold get.
  apply preserves_bind; [apply preserves_clone|intros copy].
  apply preserves_bind; [apply preserves_get_prop|intros oh].
  apply preserves_bind.
  { destruct (truthy oh); [apply preserves_ret|apply preserves_alloc]. }
  intros src. apply preserves_bind; [apply preserves_assign|intros headers].
  apply preserves_bind; [apply preserves_get_prop|intros q].
  apply preserves_bind; [apply preserves_own_props|intros hs].
  intros s. apply R_log.
Qed.

End Preserved.

Lemma quiet_createClient version getUserAgentHeader params :
  preserves quiet (createClient version getUserAgentHeader params).
Proof.
  apply preserves_createClient; unfold quiet; try done.
  intros s1 s2 s3 [-> ->] [-> ->]. done.
Qed.

Lemma keeps_refl s : keeps s s.
Proof. by split. Qed.

Lemma keeps_trans s1 s2 s3 : keeps s1 s2 → keeps s2 s3 → keeps s1 s3.
Proof. intros [D1 K1] [D2 K2]. split; [set_solver|]. auto. Qed.

Lemma keeps_put s l o :
  (∀ k, is_Some (obj_at s l !! k) → is_Some (o !! k)) → keeps s (put s l o).
Proof.
  intros Ho. split.
  - rewrite dom_put. clear. set_solver.
  - intros l' k Hk. destruct (decide (l = l')) as [<-|Hne].
    + rewrite obj_at_put_eq. auto.
    + by rewrite obj_at_put_ne.
Qed.

Lemma keeps_store s l k x : keeps s (store s l k x).
Proof.
  apply keeps_put. intros k' Hk'. destruct (decide (k = k')) as [<-|Hne].
  - rewrite lookup_insert_eq. eauto.
  - by rewrite lookup_insert_ne.
Qed.

Lemma keeps_alloc s l o : l ∉ dom (heap s) → keeps s (put s l o).
Proof.
  intros Hl. apply keeps_put. intros k [v Hv].
  by rewrite (obj_at_fresh s l Hl), lookup_empty in Hv.
Qed.

Lemma keeps_merge s l o : keeps s (put s l (o ∪ obj_at s l)).
Proof.
  apply keeps_put. intros k Hk. apply lookup_union_is_Some. by right.
Qed.

Lemma keeps_log s r : keeps s (add_request r s).
Proof. by split. Qed.

Lemma no_colon_before a r :
  no_colon a = true → before_colon (a +:+ String colon r) = a.
Proof.
  induction a as [|c a IH]; simpl.
  - intros _. reflexivity.
  - intros [Hc Ha]%andb_true_iff.
    change (before_colon (String c (a +:+ String colon r)) = String c a).
    simpl. apply negb_true_iff in Hc. rewrite Hc. by rewrite IH.
Qed.

Lemma no_colon_after a r :
  no_colon a = true → after_colon (a +:+ String colon r) = Some r.
Proof.
  induction a as [|c a IH]; simpl.
  - intros _. reflexivity.
  - intros [Hc Ha]%andb_true_iff.
    change (after_colon (String c (a +:+ String colon r)) = Some r).
    simpl. apply negb_true_iff in Hc. rewrite Hc. by apply IH.
Qed.

Lemma no_colon_before_all a : no_colon a = true → before_colon a = a.
Proof.
  induction a as [|c a IH]; simpl; [done|].
  intros [Hc Ha]%andb_true_iff. apply negb_true_iff in Hc. rewrite Hc.
  by rewrite IH.
Qed.

(** What a [get] leaves in place is read the same afterwards. *)
Lemma unchanged_lookup_key s s' v k :
  (∀ l, l ∈ dom (heap s) → heap s' !! l = heap s !! l) →
  allocated s v → lookup_key s' v k = lookup_key s v k.
Proof.
  intros H Hv. destruct v; try done. simpl in *. unfold prop, obj_at.
  by rewrite H.
Qed.

Lemma unchanged_props_of s s' v :
  (∀ l, l ∈ dom (heap s) → heap s' !! l = heap s !! l) →
  allocated s v → props_of s' v = props_of s v.
Proof.
  intros H Hv. destruct v; try done. simpl in *. unfold obj_at. by rewrite H.
Qed.

Lemma unchanged_allocated s s' v :
  (∀ l, l ∈ dom (heap s) → heap s' !! l = heap s !! l) →
  allocated s v → allocated s' v.
Proof.
  intros H Hv. destruct v; try done. simpl in *.
  apply elem_of_dom. rewrite H by done. by apply elem_of_dom.
Qed.

Section Further.

Variable version : string.
Variable getUserAgentHeader : string → value → value → string.

(** X8: whatever its argument and whatever its outcome, [createClient]
    builds no request and does not touch the binding [process]. *)
Theorem createClient_builds_no_request params s :
  requests (createClient version getUserAgentHeader params s).2 = requests s ∧
  process (createClient version getUserAgentHeader params s).2 = process s.
Proof.
  change (quiet s (createClient version getUserAgentHeader params s).2).
  revert s. apply preserves_createClient; unfold quiet; try done.
  intros s1 s2 s3 [-> ->] [-> ->]. done.
Qed.

(** X9: neither [createClient] nor [get] ever removes an object from the
    heap or a property from an object, whatever their arguments and
    outcome: they only add objects and set properties. *)
Theorem nothing_is_deleted params c path options s :
  keeps s (createClient version getUserAgentHeader params s).2 ∧
  keeps s (get c path options s).2.
Proof.
  split.
  - apply preserves_createClient;
      auto using keeps_refl, keeps_store, keeps_alloc, keeps_merge.
    apply keeps_trans.
  - apply preserves_get;
      auto using keeps_refl, keeps_store, keeps_alloc, keeps_merge, keeps_log.
    apply keeps_trans.
Qed.

(** X2: a truthy [host] that is not a string passes validation and then
    makes [createClient] throw the [TypeError] of calling [host.split];
    no request has been built. *)
Theorem host_not_a_string s l :
  wf s →
  truthy (prop s l "accessToken") = true → truthy (prop s l "space") = true →
  host_ok (prop s l "host") = false →
  ∃ s',
    createClient version getUserAgentHeader (VObj l) s =
      (Throw (NotAFunction "split"), s') ∧
    requests s' = requests s.
Proof.
  intros Hwf Tat Tsp Hh.
  destruct (createClient_bad_host version getUserAgentHeader s l Hwf Tat Tsp Hh)
    as [s' Hrun].
  exists s'. split; [done|].
  pose proof (quiet_createClient version getUserAgentHeader (VObj l) s) as [Hq _].
  by rewrite Hrun in Hq.
Qed.

(** X3: a truthy [defaultHeaders] that is not an object passes validation
    and then makes [createClient] throw on the strict-mode assignment
    [defaultHeaders['Authorization'] = ...]; no request has been built. *)
Theorem default_headers_not_an_object s l :
  wf s →
  truthy (prop s l "accessToken") = true → truthy (prop s l "space") = true →
  host_ok (prop s l "host") = true →
  dh_ok (prop s l "defaultHeaders") = false →
  ∃ s',
    createClient version getUserAgentHeader (VObj l) s =
      (Throw (CannotCreateProperty (prop s l "defaultHeaders") "Authorization"),
       s') ∧
    requests s' = requests s.
Proof.
  intros Hwf Tat Tsp Hh Hd.
  destruct (createClient_bad_default_headers version getUserAgentHeader s l
              Hwf Tat Tsp Hh Hd) as [s' Hrun].
  exists s'. split; [done|].
  pose proof (quiet_createClient version getUserAgentHeader (VObj l) s) as [Hq _].
  by rewrite Hrun in Hq.
Qed.

(** X4: where the identifier [process] is not declared, [createClient]
    on otherwise acceptable params throws [ReferenceError] from the
    runtime probe: no client comes out of it. *)
Theorem process_not_declared s l :
  wf s →
  truthy (prop s l "accessToken") = true → truthy (prop s l "space") = true →
  host_ok (prop s l "host") = true →
  dh_ok (prop s l "defaultHeaders") = true →
  process s = None →
  ∃ s',
    createClient version getUserAgentHeader (VObj l) s =
      (Throw (ReferenceError "process"), s') ∧
    requests s' = requests s.
Proof.
  intros Hwf Tat Tsp Hh Hd Hp.
  destruct (createClient_undeclared_process version getUserAgentHeader s l
              Hwf Tat Tsp Hh Hd Hp) as [s' Hrun].
  exists s'. split; [done|].
  pose proof (quiet_createClient version getUserAgentHeader (VObj l) s) as [Hq _].
  by rewrite Hrun in Hq.
Qed.

(** X10: of a [host] of the form [a:b] or [a:b:...], with [a] and [b]
    free of colons and not empty, the base URL uses [a] as host name and
    [b] as port; whatever follows a second colon is ignored. *)
Theorem host_segments s l a b rest :
  wf s → accepted s l = true →
  prop s l "host" = VStr (a +:+ ":" +:+ b +:+ rest) →
  no_colon a = true → no_colon b = true → a ≠ "" → b ≠ "" →
  (rest = "" ∨ ∃ c, rest = ":" +:+ c) →
  ∃ api s',
    createClient version getUserAgentHeader (VObj l) s = (Ret api, s') ∧
    baseURL (http api) =
      scheme_of (prop s l "insecure") +:+ "://" +:+ a +:+ ":" +:+ b +:+
      "/spaces/" +:+ to_str (prop s l "space") +:+ "/".
Proof.
  intros Hwf Hacc Hhost Ha Hb Hna Hnb Hrest.
  destruct (createClient_spec version getUserAgentHeader s l Hwf Hacc)
    as (api & s' & lh & ld & Hrun & Hcc).
  exists api, s'. split; [done|].
  rewrite (cc_url _ _ _ _ _ _ _ Hcc), Hhost.
  apply accepted_inv in Hacc as (_ & Tsp & _).
  unfold derived_baseURL, hostname_of, port_of. rewrite Tsp.
  change (":" +:+ b +:+ rest) with (String colon (b +:+ rest)).
  rewrite (no_colon_before a _ Ha), (no_colon_after a _ Ha).
  assert (before_colon (b +:+ rest) = b) as ->.
  { destruct Hrest as [->|[c ->]].
    - rewrite append_empty_r. by apply no_colon_before_all.
    - by apply (no_colon_before b c). }
  apply String.eqb_neq in Hna, Hnb. by rewrite Hna, Hnb.
Qed.

(** X13: [createURL] only reads.  With a truthy [host] that is not a
    string it throws; otherwise it returns the URL derived from
    [insecure], [host] and [params.defaultHostname], which ends in
    [/spaces/{space}/] for a truthy [space] and in [/spaces/] otherwise.
    Either way the store is the one it started from. *)
Theorem createURL_outcome s l :
  createURL (VObj l) s =
    if host_ok (prop s l "host")
    then (Ret (derived_baseURL (to_str (prop s l "defaultHostname"))
                 (prop s l "insecure") (prop s l "host") (prop s l "space")), s)
    else (Throw (NotAFunction "split"), s).
Proof.
  destruct (host_ok (prop s l "host")) eqn:Hh.
  - by apply createURL_spec.
  - by apply createURL_bad_host.
Qed.

(** X6: a [get] that returns has built exactly one request, to
    [baseURL + path] with [options.query] as its query, and has left
    [process] and every object of the store, the caller's [options] and
    its headers included, as they were. *)
Theorem get_leaves_store c path options s ld :
  wf s → defaultHeaders c = VObj ld → ld ∈ dom (heap s) →
  nullish options = false → allocated s options →
  ∃ r s',
    get c path options s = (Ret r, s') ∧
    req_url r = baseURL c +:+ to_str path ∧
    req_query r = lookup_key s options "query" ∧
    requests s' = (requests s ++ [r])%list ∧
    process s' = process s ∧
    (∀ l, l ∈ dom (heap s) → heap s' !! l = heap s !! l).
Proof.
  intros Hwf Hc Hld Hn Ha.
  destruct (get_spec c path options s ld Hwf Hc Hld Hn Ha)
    as (r & s' & Hrun & Hr & Hreq & Hp & Hframe & _).
  exists r, s'. split; [done|]. rewrite Hr at 1 2. by repeat split.
Qed.

(** X7: [get] returns exactly when [options] is neither [undefined] nor
    [null]; with either it throws on reading [options.headers], before any
    request is built. *)
Theorem get_needs_options c path options s ld :
  wf s → defaultHeaders c = VObj ld → ld ∈ dom (heap s) →
  allocated s options →
  ((∃ r s', get c path options s = (Ret r, s')) ↔ nullish options = false) ∧
  (nullish options = true →
   (get c path options s).1 = Throw (NullishAccess options "headers") ∧
   requests (get c path options s).2 = requests s).
Proof.
  intros Hwf Hc Hld Ha.
  assert (nullish options = true →
          (get c path options s).1 = Throw (NullishAccess options "headers") ∧
          requests (get c path options s).2 = requests s) as Hthrow.
  { intros Hn. unfold get. rewrite Hc. by destruct options. }
  split; [|done]. split.
  - intros (r & s' & Hrun). destruct (nullish options) eqn:Hn; [|done].
    destruct (Hthrow eq_refl) as [H _]. by rewrite Hrun in H.
  - intros Hn. destruct (get_spec c path options s ld Hwf Hc Hld Hn Ha)
      as (r & s' & Hrun & _). eauto.
Qed.

(** X14: [get] keeps no state between calls: the same call made again
    builds an equal request. *)
Theorem get_is_repeatable c path options s ld :
  wf s → defaultHeaders c = VObj ld → ld ∈ dom (heap s) →
  nullish options = false → allocated s options →
  ∃ r s' s2,
    get c path options s = (Ret r, s') ∧
    get c path options s' = (Ret r, s2) ∧
    requests s2 = (requests s ++ [r; r])%list.
Proof.
  intros Hwf Hc Hld Hn Ha.
  destruct (get_spec c path options s ld Hwf Hc Hld Hn Ha)
    as (r & s' & Hrun & Hr & Hreq & _ & Hframe & Hwf').
  assert (ld ∈ dom (heap s')) as Hld'
    by (by apply (unchanged_allocated s s' (VObj ld))).
  assert (allocated s' options) as Ha' by (by apply (unchanged_allocated s)).
  destruct (get_spec c path options s' ld Hwf' Hc Hld' Hn Ha')
    as (r2 & s2 & Hrun2 & Hr2 & Hreq2 & _).
  assert (r2 = r) as ->.
  { rewrite Hr2, Hr. unfold per_call, obj_at.
    rewrite !(unchanged_lookup_key s s') by done.
    rewrite (unchanged_props_of s s') by (done || by apply wf_lookup_key).
    by rewrite Hframe. }
  exists r, s', s2. split; [done|]. split; [done|].
  rewrite Hreq2, Hreq. by rewrite <- app_assoc.
Qed.

(** X5: what a client made from params without a [defaultHeaders] entry
    sends.  The URL is the derived base URL followed by the path, the
    query is [options.query], and the headers are the per-call headers
    merged over [Authorization] (and, under Node, [user-agent] and
    [Accept-Encoding]) and nothing else: no entry of [params.headers]
    reaches a request. *)
Theorem created_client_request s l :
  wf s → accepted s l = true →
  truthy (prop s l "defaultHeaders") = false →
  ∃ api s',
    createClient version getUserAgentHeader (VObj l) s = (Ret api, s') ∧
    ∀ path options,
      nullish options = false → allocated s' options →
      ∃ r s2,
        get (http api) path options s' = (Ret r, s2) ∧
        r = {| req_url :=
                 derived_baseURL "cdn.contentful.com" (prop s l "insecure")
                   (prop s l "host") (prop s l "space") +:+ to_str path;
               req_query := lookup_key s' options "query";
               req_headers :=
                 per_call s' options ∪
                 node_headers s
                   {[ "Authorization" :=
                        VStr ("Bearer " +:+ to_str (prop s l "accessToken")) ]} |}.
Proof.
  intros Hwf Hacc Tdh.
  destruct (createClient_spec version getUserAgentHeader s l Hwf Hacc)
    as (api & s' & lh & ld & Hrun & Hcc).
  destruct (cc_contents _ _ _ _ _ _ _ Hcc) as (before & Hobj & Hbefore).
  rewrite (Hbefore Tdh), insert_empty in Hobj.
  exists api, s'. split; [done|]. intros path options Hn Ha.
  destruct (get_spec (http api) path options s' ld
              (cc_wf _ _ _ _ _ _ _ Hcc) (cc_headers _ _ _ _ _ _ _ Hcc)
              (cc_ld_dom _ _ _ _ _ _ _ Hcc) Hn Ha)
    as (r & s2 & Hget & Hr & _).
  exists r, s2. split; [done|].
  by rewrite Hr, (cc_url _ _ _ _ _ _ _ Hcc), Hobj.
Qed.

(** X11: when params carries a [defaultHeaders] object, that object is
    the client's default headers: its [Authorization] is overwritten with
    the bearer token, each of its entries under a key [createClient] does
    not write is kept, and [get] sends every entry that the per-call
    headers do not override. *)
Theorem caller_defaults_are_sent s l d :
  wf s → accepted s l = true →
  prop s l "defaultHeaders" = VObj d →
  ∃ api s',
    createClient version getUserAgentHeader (VObj l) s = (Ret api, s') ∧
    defaultHeaders (http api) = VObj d ∧
    obj_at s' d !! "Authorization" =
      Some (VStr ("Bearer " +:+ to_str (prop s l "accessToken"))) ∧
    (∀ k, k ∉ written_keys s → obj_at s' d !! k = obj_at s d !! k) ∧
    ∀ path options,
      nullish options = false → allocated s' options →
      ∃ r s2,
        get (http api) path options s' = (Ret r, s2) ∧
        ∀ k, per_call s' options !! k = None →
             req_headers r !! k = obj_at s' d !! k.
Proof.
  intros Hwf Hacc Hd.
  destruct (createClient_spec version getUserAgentHeader s l Hwf Hacc)
    as (api & s' & lh & ld & Hrun & Hcc).
  pose proof (cc_ld _ _ _ _ _ _ _ Hcc) as Hld. rewrite Hd in Hld. subst ld.
  assert (d ∈ dom (heap s)) as Hdin.
  { pose proof (wf_prop s l "defaultHeaders" Hwf) as H. by rewrite Hd in H. }
  destruct (cc_contents _ _ _ _ _ _ _ Hcc) as (before & Hobj & _).
  exists api, s'. split; [done|].
  split; [apply (cc_headers _ _ _ _ _ _ _ Hcc)|]. split.
  { rewrite Hobj. unfold node_headers.
    destruct (is_node s); by rewrite ?lookup_insert_ne, lookup_insert_eq by done. }
  split.
  { intros k Hk. by apply (ev_keys _ _ _ _ (cc_frame _ _ _ _ _ _ _ Hcc)). }
  intros path options Hn Ha.
  destruct (get_spec (http api) path options s' d
              (cc_wf _ _ _ _ _ _ _ Hcc) (cc_headers _ _ _ _ _ _ _ Hcc)
              (cc_ld_dom _ _ _ _ _ _ _ Hcc) Hn Ha)
    as (r & s2 & Hget & Hr & _).
  exists r, s2. split; [done|]. intros k Hk.
  rewrite Hr; cbn [req_headers]. by apply lookup_union_r.
Qed.

(** X12: two params objects that carry the same [defaultHeaders] object
    give two clients with that one object as default headers, and the
    second [createClient] overwrites the [Authorization] of the first:
    from then on both clients send the second token. *)
Theorem second_client_overwrites_authorization s l l2 d :
  wf s → accepted s l = true → accepted s l2 = true →
  prop s l "defaultHeaders" = VObj d → prop s l2 "defaultHeaders" = VObj d →
  ∃ api1 s1 api2 s2,
    createClient version getUserAgentHeader (VObj l) s = (Ret api1, s1) ∧
    createClient version getUserAgentHeader (VObj l2) s1 = (Ret api2, s2) ∧
    defaultHeaders (http api1) = VObj d ∧
    defaultHeaders (http api2) = VObj d ∧
    obj_at s1 d !! "Authorization" =
      Some (VStr ("Bearer " +:+ to_str (prop s l "accessToken"))) ∧
    obj_at s2 d !! "Authorization" =
      Some (VStr ("Bearer " +:+ to_str (prop s l2 "accessToken"))).
Proof.
  intros Hwf Hacc Hacc2 Hd Hd2.
  destruct (createClient_spec version getUserAgentHeader s l Hwf Hacc)
    as (api1 & s1 & lh1 & ld1 & Hrun1 & Hcc1).
  pose proof (cc_frame _ _ _ _ _ _ _ Hcc1) as Hev1.
  pose proof (cc_wf _ _ _ _ _ _ _ Hcc1) as Hwf1.
  pose proof (cc_ld _ _ _ _ _ _ _ Hcc1) as Hld1. rewrite Hd in Hld1. subst ld1.
  assert (l2 ∈ dom (heap s)) as Hl2.
  { apply accepted_inv in Hacc2 as (Tat & _). by eapply prop_allocated. }
  assert (∀ k, k ∉ written_keys s → prop s1 l2 k = prop s l2 k) as Hkeep
    by (intros k Hk; by apply (evolves_prop _ _ _ _ _ _ Hev1)).
  assert (prop s1 l2 "accessToken" = prop s l2 "accessToken") as Kat
    by (apply Hkeep; notin_keys).
  assert (prop s1 l2 "space" = prop s l2 "space") as Ksp
    by (apply Hkeep; notin_keys).
  assert (prop s1 l2 "host" = prop s l2 "host") as Khost
    by (apply Hkeep; notin_keys).
  assert (prop s1 l2 "defaultHeaders" = prop s l2 "defaultHeaders") as Kdh
    by (apply Hkeep; notin_keys).
  assert (accepted s1 l2 = true) as Hacc1.
  { unfold accepted in *.
    by rewrite Kat, Ksp, Khost, Kdh, (ev_process _ _ _ _ Hev1). }
  destruct (createClient_spec version getUserAgentHeader s1 l2 Hwf1 Hacc1)
    as (api2 & s2 & lh2 & ld2 & Hrun2 & Hcc2).
  pose proof (cc_ld _ _ _ _ _ _ _ Hcc2) as Hld2.
  rewrite Kdh, Hd2 in Hld2. subst ld2.
  destruct (cc_contents _ _ _ _ _ _ _ Hcc1) as (b1 & Ho1 & _).
  destruct (cc_contents _ _ _ _ _ _ _ Hcc2) as (b2 & Ho2 & _).
  exists api1, s1, api2, s2. split; [done|]. split; [done|].
  split; [apply (cc_headers _ _ _ _ _ _ _ Hcc1)|].
  split; [apply (cc_headers _ _ _ _ _ _ _ Hcc2)|]. split.
  - rewrite Ho1. unfold node_headers.
    destruct (is_node s); by rewrite ?lookup_insert_ne, lookup_insert_eq by done.
  - rewrite Ho2, Kat. unfold node_headers.
    destruct (is_node s1); by rewrite ?lookup_insert_ne, lookup_insert_eq by done.
Qed.

End Further.

(** * The further properties at concrete inputs *)

(** X1 at [{accessToken: 'tok', space: 'abc'}] under Node. *)
Lemma createClient_returns_iff_witness :
  ∃ api s',
    createClient example_version example_user_agent (VObj 1)
      (node_runtime params_tok) = (Ret api, s').
Proof.
  apply (createClient_returns_iff example_version example_user_agent
           (node_runtime params_tok) 1); [by_computation|computed].
Defined.

(** X2 at [{accessToken: 'tok', space: 'abc', host: 8080}]. *)
Lemma host_not_a_string_witness :
  ∃ s',
    createClient example_version example_user_agent (VObj 1)
      (node_runtime params_numeric_host) = (Throw (NotAFunction "split"), s') ∧
    requests s' = [].
Proof.
  apply (host_not_a_string example_version example_user_agent
           (node_runtime params_numeric_host) 1);
    [by_computation|computed|computed|computed].
Defined.

(** X3 at [{accessToken: 'tok', space: 'abc', defaultHeaders: 'X-Foo: bar'}]. *)
Lemma default_headers_not_an_object_witness :
  ∃ s',
    createClient example_version example_user_agent (VObj 1)
      (node_runtime params_string_defaults) =
      (Throw (CannotCreateProperty (VStr "X-Foo: bar") "Authorization"), s') ∧
    requests s' = [].
Proof.
  apply (default_headers_not_an_object example_version example_user_agent
           (node_runtime params_string_defaults) 1);
    [by_computation|computed|computed|computed|computed].
Defined.

(** X4 at [{accessToken: 'tok', space: 'abc'}] where [process] is not
    declared. *)
Lemma process_not_declared_witness :
  ∃ s',
    createClient example_version example_user_agent (VObj 1)
      (no_process params_tok) = (Throw (ReferenceError "process"), s') ∧
    requests s' = [].
Proof.
  apply (process_not_declared example_version example_user_agent
           (no_process params_tok) 1);
    [by_computation|computed|computed|computed|computed|reflexivity].
Defined.

(** X5: [createClient({accessToken: 'tok', space: 'abc'})] under Node,
    then [get('entries', {query: 'limit=1'})]. *)
Lemma created_client_request_witness :
  ∃ api s' r s2,
    createClient example_version example_user_agent (VObj 1)
      store_with_options = (Ret api, s') ∧
    get (http api) (VStr "entries") (VObj 4) s' = (Ret r, s2) ∧
    req_url r = "https://cdn.contentful.com:443/spaces/abc/entries" ∧
    req_query r = VStr "limit=1" ∧
    req_headers r =
      {[ "Authorization" := VStr "Bearer tok";
         "user-agent" := VStr "node.js/v6.9.1";
         "Accept-Encoding" := VStr "gzip" ]}.
Proof.
  destruct (created_client_request example_version example_user_agent
              store_with_options 1)
    as (api & s' & Hrun & Hget); [by_computation|computed|computed|].
  assert (s' = (createClient example_version example_user_agent (VObj 1)
                  store_with_options).2) as Hs' by (by rewrite Hrun).
  destruct (Hget (VStr "entries") (VObj 4)) as (r & s2 & Hrun2 & Hr);
    [reflexivity|rewrite Hs'; by_computation|].
  exists api, s', r, s2. split; [assumption|]. split; [assumption|].
  rewrite Hr, Hs'. repeat split; computed.
Defined.

(** X6: a call with [{headers: {'X-Foo': 'bar'}}]; the headers object of
    the caller, at 6, is as before. *)
Lemma get_leaves_store_witness :
  ∃ r s',
    get example_client (VStr "entries") (VObj 5) store_for_get = (Ret r, s') ∧
    req_url r = "https://cdn.contentful.com:443/spaces/abc/entries" ∧
    requests s' = [r] ∧
    heap s' !! 6%positive = Some {[ "X-Foo" := VStr "bar" ]}.
Proof.
  destruct (get_leaves_store example_client (VStr "entries") (VObj 5)
              store_for_get 4)
    as (r & s' & Hrun & Hurl & _ & Hreq & _ & Hframe);
    [by_computation|reflexivity|by_computation|reflexivity|by_computation|].
  exists r, s'. split; [assumption|]. split; [rewrite Hurl; computed|].
  split; [assumption|]. rewrite Hframe; [computed|by_computation].
Defined.

(** X7 with [options] [null]. *)
Lemma get_needs_options_witness :
  (get example_client (VStr "entries") VNull store_for_get).1 =
    Throw (NullishAccess VNull "headers") ∧
  requests (get example_client (VStr "entries") VNull store_for_get).2 = [].
Proof.
  destruct (get_needs_options example_client (VStr "entries") VNull
              store_for_get 4) as [_ Hthrow];
    [by_computation|reflexivity|by_computation|exact I|].
  apply Hthrow. reflexivity.
Defined.

(** X10 at [host: 'example.com:9000:ignored']. *)
Lemma host_segments_witness :
  ∃ api s',
    createClient example_version example_user_agent (VObj 1)
      (node_runtime params_three_segments) = (Ret api, s') ∧
    baseURL (http api) = "https://example.com:9000/spaces/abc/".
Proof.
  destruct (host_segments example_version example_user_agent
              (node_runtime params_three_segments) 1
              "example.com" "9000" ":ignored")
    as (api & s' & Hrun & Hurl);
    [by_computation|computed|computed|reflexivity|reflexivity|
     discriminate|discriminate|right; by exists "ignored"|].
  exists api, s'. split; [assumption|]. rewrite Hurl. computed.
Defined.

(** X11 at [defaultHeaders: {'X-Custom': '1', Authorization: 'Basic abc'}]. *)
Lemma caller_defaults_are_sent_witness :
  ∃ api s',
    createClient example_version example_user_agent (VObj 1)
      store_custom_defaults = (Ret api, s') ∧
    defaultHeaders (http api) = VObj 4 ∧
    obj_at s' 4 !! "Authorization" = Some (VStr "Bearer tok") ∧
    obj_at s' 4 !! "X-Custom" = Some (VStr "1").
Proof.
  destruct (caller_defaults_are_sent example_version example_user_agent
              store_custom_defaults 1 4)
    as (api & s' & Hrun & Hd & Hauth & Hkeep & _);
    [by_computation|computed|computed|].
  exists api, s'. split; [assumption|]. split; [assumption|].
  split; [assumption|]. etrans; [apply Hkeep; by_computation|computed].
Defined.

(** X12: tokens ['tok'] and ['other'] over one [defaultHeaders] object. *)
Lemma second_client_overwrites_authorization_witness :
  ∃ api1 s1 api2 s2,
    createClient example_version example_user_agent (VObj 1)
      store_two_tokens = (Ret api1, s1) ∧
    createClient example_version example_user_agent (VObj 5) s1 = (Ret api2, s2) ∧
    defaultHeaders (http api1) = VObj 4 ∧
    defaultHeaders (http api2) = VObj 4 ∧
    obj_at s1 4 !! "Authorization" = Some (VStr "Bearer tok") ∧
    obj_at s2 4 !! "Authorization" = Some (VStr "Bearer other").
Proof.
  destruct (second_client_overwrites_authorization example_version
              example_user_agent store_two_tokens 1 5 4)
    as (api1 & s1 & api2 & s2 & H1 & H2 & Hd1 & Hd2 & Ha1 & Ha2);
    [by_computation|computed|computed|computed|computed|].
  exists api1, s1, api2, s2. repeat split; assumption.
Defined.

(** X14: the call with [{headers: {'X-Foo': 'bar'}}], twice. *)
Lemma get_is_repeatable_witness :
  ∃ r s' s2,
    get example_client (VStr "entries") (VObj 5) store_for_get = (Ret r, s') ∧
    get example_client (VStr "entries") (VObj 5) s' = (Ret r, s2) ∧
    requests s2 = [r; r].
Proof.
  apply (get_is_repeatable example_client (VStr "entries") (VObj 5)
           store_for_get 4);
    [by_computation|reflexivity|by_computation|reflexivity|by_computation].
Defined.
